(** * ocr-bol-app: the extraction service and its upload client

    A shallow embedding of
      - [src/server/server.js]   (module [Server]),
      - [src/unnamed/part_001]   (module [ServerAlt], the commented variant
                                  of the same service),
      - [src/unnamed/part_000]   (module [Client], the React component),
    together with the pieces of the JavaScript runtime the service leans on:
    strings as sequences of UTF-16 code units, the regular expressions the
    source writes, [String.prototype.replace/match/trim/substring] and
    [JSON.parse].

    The OCR engine, the hosted language model and the Base64 encoder are
    external collaborators; they are fields of an environment record and
    every theorem quantifies over them.  Console output is not modelled. *)

From Stdlib Require Import NArith String Ascii Lia.
From stdpp Require Import base option list gmap.
From stdpp Require Import pretty.

Open Scope N_scope.
Open Scope list_scope.

(** ** JavaScript strings *)

Module JSString.

(** A JavaScript string is a sequence of 16-bit code units. *)
Abbreviation char16 := N (only parsing).
Abbreviation jsstring := (list N) (only parsing).

(** Source literals: every character of a literal of this repository is
    ASCII, so one character is one code unit. *)
Definition u (s : string) : jsstring :=
  map N_of_ascii (list_ascii_of_string s).

Definition quote : char16 := 34.       (* the double quote *)
Definition backslash : char16 := 92.
Definition newline : char16 := 10.
Definition q : jsstring := [quote].

(** [WhiteSpace] and [LineTerminator] of ECMAScript: what [\s] matches
    and what [trim] removes. *)
Definition is_whitespace (c : char16) : bool :=
  (c =? 9) || (c =? 10) || (c =? 11) || (c =? 12) || (c =? 13) ||
  (c =? 32) || (c =? 160) || (c =? 5760) ||
  ((8192 <=? c) && (c <=? 8202)) ||
  (c =? 8232) || (c =? 8233) || (c =? 8239) || (c =? 8287) ||
  (c =? 12288) || (c =? 65279).

Fixpoint trimStart (s : jsstring) : jsstring :=
  match s with
  | c :: s' => if is_whitespace c then trimStart s' else s
  | [] => []
  end.

Definition trimEnd (s : jsstring) : jsstring :=
  rev (trimStart (rev s)).

(** [s.trim()] *)
Definition trim (s : jsstring) : jsstring := trimEnd (trimStart s).

(** [s.substring(0, n)] for a constant [n >= 0]. *)
Definition substring0 (n : nat) (s : jsstring) : jsstring := take n s.

(** [s.startsWith(p)] *)
Fixpoint startsWith (p s : jsstring) : bool :=
  match p, s with
  | [], _ => true
  | a :: p', b :: s' => (a =? b) && startsWith p' s'
  | _ :: _, [] => false
  end.

(** [s.includes(p)] *)
Fixpoint includes (p s : jsstring) : bool :=
  startsWith p s ||
  match s with
  | [] => false
  | _ :: s' => includes p s'
  end.

Definition eqb (a b : jsstring) : bool := bool_decide (a = b).

End JSString.
Import JSString.

(** ** Regular expressions

    The fragment of ECMAScript regular expressions the source uses:
    literal characters, character classes (white space, every character
    but the double quote), sequencing, the
    greedy quantifiers [?] on an expression and [*], [+] on a class, and
    one capture group.  Matching is the backtracking search of the
    language: the continuation [k] is the rest of the pattern. *)

Module RegExp.

Inductive regex : Type :=
| Eps
| Chr (c : char16)
| Cls (p : char16 -> bool)
| Seq (r1 r2 : regex)
| Opt (r : regex)
| Star (p : char16 -> bool)
| Plus (p : char16 -> bool)
| Grp (r : regex).

(** A literal run of characters. *)
Fixpoint lit (s : jsstring) : regex :=
  match s with
  | [] => Eps
  | c :: s' => Seq (Chr c) (lit s')
  end.

Section Matcher.
Context {R : Type}.

(** Greedy iteration of a class: take one more character when
    possible, give it back when the rest of the pattern fails. *)
Fixpoint star (p : char16 -> bool) (k : jsstring -> option R)
         (s : jsstring) : option R :=
  match s with
  | c :: s' =>
      if p c then
        match star p k s' with
        | Some x => Some x
        | None => k s
        end
      else k s
  | [] => k []
  end.

Fixpoint rmatch (r : regex) (s : jsstring) (cap : option jsstring)
         (k : jsstring -> option jsstring -> option R) : option R :=
  match r with
  | Eps => k s cap
  | Chr c =>
      match s with
      | c' :: s' => if c' =? c then k s' cap else None
      | [] => None
      end
  | Cls p =>
      match s with
      | c' :: s' => if p c' then k s' cap else None
      | [] => None
      end
  | Seq r1 r2 => rmatch r1 s cap (fun s1 cap1 => rmatch r2 s1 cap1 k)
  | Opt r' =>
      match rmatch r' s cap k with
      | Some x => Some x
      | None => k s cap
      end
  | Star p => star p (fun s' => k s' cap) s
  | Plus p =>
      match s with
      | c' :: s' => if p c' then star p (fun s'' => k s'' cap) s' else None
      | [] => None
      end
  | Grp r' =>
      rmatch r' s cap
        (fun s' _ => k s' (Some (take (length s - length s') s)))
  end.
End Matcher.

(** The result of one successful match: where it starts, the text after
    it, the matched text ([m[0]]) and the capture ([m[1]], [None] when
    the group took no part). *)
Record match_result := MatchResult {
  index : nat;
  rest : jsstring;
  matched : jsstring;
  group1 : option jsstring
}.

(** A match anchored at the start of [s]. *)
Definition exec_at (r : regex) (s : jsstring)
  : option (jsstring * option jsstring) :=
  rmatch r s None (fun s' cap => Some (s', cap)).

(** [r.exec(s)] without the [g] flag: the leftmost match. *)
Fixpoint exec_from (r : regex) (i : nat) (s : jsstring)
  : option match_result :=
  match exec_at r s with
  | Some (s', cap) =>
      Some (MatchResult i s' (take (length s - length s') s) cap)
  | None =>
      match s with
      | [] => None
      | _ :: t => exec_from r (S i) t
      end
  end.

(** [s.match(r)] for a regular expression without the [g] flag. *)
Definition String_match (s : jsstring) (r : regex) : option match_result :=
  exec_from r 0%nat s.

(** [s.replace(r, repl)] for a regular expression with the [g] flag and
    a replacement without [$] patterns.  [skip] counts the characters of
    the current match still to drop; an empty match puts [repl] in
    front of the character and moves on by one. *)
Fixpoint replace_go (r : regex) (repl : jsstring) (skip : nat)
         (s : jsstring) : jsstring :=
  match s with
  | [] =>
      match skip, exec_at r [] with
      | O, Some _ => repl
      | _, _ => []
      end
  | c :: s' =>
      match skip with
      | S n => replace_go r repl n s'
      | O =>
          match exec_at r s with
          | Some (s'', _) =>
              match (length s - length s'')%nat with
              | O => repl ++ c :: replace_go r repl 0 s'
              | S n => repl ++ replace_go r repl n s'
              end
          | None => c :: replace_go r repl 0 s'
          end
      end
  end.

Definition String_replace (s : jsstring) (r : regex) (repl : jsstring)
  : jsstring :=
  replace_go r repl 0 s.

End RegExp.
Import RegExp.

(** ** JSON values and [JSON.parse] *)

Module JSON.

(** A number is kept as the literal that denotes it.  The double that
    JavaScript makes of the literal, and the text [res.json] writes for
    that double, are not modelled: a theorem that follows a parsed value
    into a response asks for a value without numbers. *)
#[local] Unset Elimination Schemes.
Inductive json : Type :=
| JNull
| JBool (b : bool)
| JNumber (literal : jsstring)
| JString (s : jsstring)
| JArray (elements : list json)
| JObject (members : list (jsstring * json)).
#[local] Set Elimination Schemes.

(** Outcome of a parsing function that runs on fuel. *)
Inductive presult (A : Type) : Type :=
| Parsed (a : A) (rest : jsstring)
| Invalid
| OutOfFuel.
Arguments Parsed {A} a rest.
Arguments Invalid {A}.
Arguments OutOfFuel {A}.

(** JSON white space: tab, line feed, carriage return, space. *)
Definition is_json_ws (c : char16) : bool :=
  (c =? 9) || (c =? 10) || (c =? 13) || (c =? 32).

Fixpoint skip_ws (s : jsstring) : jsstring :=
  match s with
  | c :: s' => if is_json_ws c then skip_ws s' else s
  | [] => []
  end.

Definition is_digit (c : char16) : bool := (48 <=? c) && (c <=? 57).

Definition hex_val (c : char16) : option N :=
  if is_digit c then Some (c - 48)
  else if (97 <=? c) && (c <=? 102) then Some (c - 87)
  else if (65 <=? c) && (c <=? 70) then Some (c - 55)
  else None.

Definition hex4 (a b c d : char16) : option char16 :=
  match hex_val a, hex_val b, hex_val c, hex_val d with
  | Some x, Some y, Some z, Some w => Some (((x * 16 + y) * 16 + z) * 16 + w)
  | _, _, _, _ => None
  end.

(** The character after a backslash, [u] apart. *)
Definition unescape (e : char16) : option char16 :=
  if e =? 34 then Some 34            (* quote *)
  else if e =? 92 then Some 92       (* backslash *)
  else if e =? 47 then Some 47       (* slash *)
  else if e =? 98 then Some 8        (* b *)
  else if e =? 102 then Some 12      (* f *)
  else if e =? 110 then Some 10      (* n *)
  else if e =? 114 then Some 13      (* r *)
  else if e =? 116 then Some 9       (* t *)
  else None.

Definition push (c : char16) (r : option (jsstring * jsstring))
  : option (jsstring * jsstring) :=
  match r with
  | Some (v, rest) => Some (c :: v, rest)
  | None => None
  end.

(** The characters of a string after its opening quote, up to and
    including the closing one. *)
Fixpoint string_body (s : jsstring) : option (jsstring * jsstring) :=
  match s with
  | [] => None
  | c :: s' =>
      if c =? quote then Some ([], s')
      else if c =? backslash then
        match s' with
        | e :: s'' =>
            if e =? 117 then
              match s'' with
              | h1 :: h2 :: h3 :: h4 :: s3 =>
                  match hex4 h1 h2 h3 h4 with
                  | Some cu => push cu (string_body s3)
                  | None => None
                  end
              | _ => None
              end
            else
              match unescape e with
              | Some cu => push cu (string_body s'')
              | None => None
              end
        | [] => None
        end
      else if c <? 32 then None
      else push c (string_body s')
  end.

(** The longest run of digits in front of [s]. *)
Fixpoint digits (s : jsstring) : jsstring * jsstring :=
  match s with
  | c :: s' =>
      if is_digit c then let '(d, r) := digits s' in (c :: d, r)
      else ([], s)
  | [] => ([], [])
  end.

(** One or more digits. *)
Definition digits1 (s : jsstring) : option (jsstring * jsstring) :=
  match digits s with
  | ([], _) => None
  | (d, r) => Some (d, r)
  end.

(** An optional minus sign, then a single zero or a digit from 1 to 9
    followed by any digits. *)
Definition number_int (s : jsstring) : option (jsstring * jsstring) :=
  let '(sign, s1) :=
    match s with
    | c :: s' => if c =? 45 then ([c], s') else ([], s)
    | [] => ([], s)
    end in
  match s1 with
  | c :: s2 =>
      if c =? 48 then Some (sign ++ [c], s2)
      else if is_digit c then
        let '(d, r) := digits s2 in Some (sign ++ c :: d, r)
      else None
  | [] => None
  end.

(** An optional fraction: a dot and one or more digits. *)
Definition number_frac (s : jsstring) : option (jsstring * jsstring) :=
  match s with
  | c :: s' =>
      if c =? 46 then
        match digits1 s' with
        | Some (d, r) => Some (c :: d, r)
        | None => None
        end
      else Some ([], s)
  | [] => Some ([], s)
  end.

(** An optional exponent: e or E, an optional sign, one or more digits. *)
Definition number_exp (s : jsstring) : option (jsstring * jsstring) :=
  match s with
  | c :: s' =>
      if (c =? 101) || (c =? 69) then
        let '(sign, s1) :=
          match s' with
          | d :: s'' => if (d =? 43) || (d =? 45) then ([d], s'') else ([], s')
          | [] => ([], s')
          end in
        match digits1 s1 with
        | Some (d, r) => Some (c :: sign ++ d, r)
        | None => None
        end
      else Some ([], s)
  | [] => Some ([], s)
  end.

Definition number (s : jsstring) : option (jsstring * jsstring) :=
  match number_int s with
  | Some (i, s1) =>
      match number_frac s1 with
      | Some (f, s2) =>
          match number_exp s2 with
          | Some (e, s3) => Some (i ++ f ++ e, s3)
          | None => None
          end
      | None => None
      end
  | None => None
  end.

Definition of_option {A} (r : option (A * jsstring)) : presult A :=
  match r with
  | Some (a, rest) => Parsed a rest
  | None => Invalid
  end.

(** Recursive descent over the JSON grammar (ECMA-404). *)
Fixpoint parse_value (fuel : nat) (s : jsstring) : presult json :=
  match fuel with
  | O => OutOfFuel
  | S fuel' =>
      match s with
      | [] => Invalid
      | c :: s' =>
          if c =? 123 then                                   (* { *)
            match skip_ws s' with
            | d :: s'' =>
                if d =? 125 then Parsed (JObject []) s''     (* } *)
                else
                  match parse_members fuel' (skip_ws s') [] with
                  | Parsed ms r => Parsed (JObject ms) r
                  | Invalid => Invalid
                  | OutOfFuel => OutOfFuel
                  end
            | [] => Invalid
            end
          else if c =? 91 then                               (* [ *)
            match skip_ws s' with
            | d :: s'' =>
                if d =? 93 then Parsed (JArray []) s''       (* ] *)
                else
                  match parse_elements fuel' (skip_ws s') [] with
                  | Parsed vs r => Parsed (JArray vs) r
                  | Invalid => Invalid
                  | OutOfFuel => OutOfFuel
                  end
            | [] => Invalid
            end
          else if c =? quote then
            match string_body s' with
            | Some (v, r) => Parsed (JString v) r
            | None => Invalid
            end
          else if (c =? 45) || is_digit c then
            match number s with
            | Some (n, r) => Parsed (JNumber n) r
            | None => Invalid
            end
          else if startsWith (u "true") s then Parsed (JBool true) (drop 4 s)
          else if startsWith (u "false") s then Parsed (JBool false) (drop 5 s)
          else if startsWith (u "null") s then Parsed JNull (drop 4 s)
          else Invalid
      end
  end
with parse_elements (fuel : nat) (s : jsstring) (acc : list json)
  : presult (list json) :=
  match fuel with
  | O => OutOfFuel
  | S fuel' =>
      match parse_value fuel' s with
      | Parsed v r =>
          match skip_ws r with
          | d :: r' =>
              if d =? 44 then parse_elements fuel' (skip_ws r') (v :: acc)
              else if d =? 93 then Parsed (rev (v :: acc)) r'
              else Invalid
          | [] => Invalid
          end
      | Invalid => Invalid
      | OutOfFuel => OutOfFuel
      end
  end
with parse_members (fuel : nat) (s : jsstring) (acc : list (jsstring * json))
  : presult (list (jsstring * json)) :=
  match fuel with
  | O => OutOfFuel
  | S fuel' =>
      match s with
      | c :: s' =>
          if c =? quote then
            match string_body s' with
            | Some (key, r) =>
                match skip_ws r with
                | d :: r' =>
                    if d =? 58 then                          (* : *)
                      match parse_value fuel' (skip_ws r') with
                      | Parsed v r2 =>
                          match skip_ws r2 with
                          | e :: r3 =>
                              if e =? 44 then
                                parse_members fuel' (skip_ws r3)
                                  ((key, v) :: acc)
                              else if e =? 125 then
                                Parsed (rev ((key, v) :: acc)) r3
                              else Invalid
                          | [] => Invalid
                          end
                      | Invalid => Invalid
                      | OutOfFuel => OutOfFuel
                      end
                    else Invalid
                | [] => Invalid
                end
            | None => Invalid
            end
          else Invalid
      | [] => Invalid
      end
  end.

(** Fuel that the descent never exhausts on [s]. *)
Definition fuel_for (s : jsstring) : nat := S (2 * length s).

(** [JSON.parse(s)]: [None] is the [SyntaxError] it throws. *)
Definition parse (s : jsstring) : option json :=
  match parse_value (fuel_for s) (skip_ws s) with
  | Parsed v r =>
      match skip_ws r with
      | [] => Some v
      | _ :: _ => None
      end
  | Invalid => None
  | OutOfFuel => None
  end.

(** The value of an own property of an object built by [JSON.parse]: a
    later member with the same key replaces an earlier one. *)
Fixpoint own_property (k : jsstring) (ms : list (jsstring * json))
  : option json :=
  match ms with
  | [] => None
  | (k', v) :: ms' =>
      match own_property k ms' with
      | Some w => Some w
      | None => if bool_decide (k' = k) then Some v else None
      end
  end.

(** An object literal of the source.  A property whose value is
    [undefined] ([None]) reads back as [undefined] and is left out by
    [JSON.stringify], so it is not stored. *)
Definition object_literal (fields : list (jsstring * option json)) : json :=
  JObject (omap (fun '(k, v) => match v with
                                | Some w => Some (k, w)
                                | None => None
                                end) fields).

End JSON.
Import JSON.

(** ** The Node.js runtime: exceptions, the file system, the response

    A computation runs in a world (the files on disk and the trace of
    what the request did so far) and either returns or throws; what it
    did to the world before throwing stays done. *)

Module Node.

Inductive exn : Type := Error (message : jsstring).

Definition message (e : exn) : jsstring :=
  match e with Error m => m end.

Inductive event : Type :=
| Recognize (path : jsstring)                   (* the OCR engine ran *)
| ChatCompletion (prompt image_url : jsstring)  (* the model was called *)
| Unlink (path : jsstring)                      (* a file was deleted *)
| Respond (status : N) (body : json).           (* the response was sent *)

Record world := World {
  fs : gmap jsstring (list N);
  trace : list event
}.

Definition M (A : Type) : Type := world -> (exn + A) * world.

Definition ret {A} (a : A) : M A := fun w => (inr a, w).

Definition throw {A} (e : exn) : M A := fun w => (inl e, w).

Definition bind {A B} (m : M A) (k : A -> M B) : M B :=
  fun w =>
    match m w with
    | (inr a, w') => k a w'
    | (inl e, w') => (inl e, w')
    end.

(** [try { m } catch (error) { h error }] *)
Definition try_catch {A} (m : M A) (h : exn -> M A) : M A :=
  fun w =>
    match m w with
    | (inr a, w') => (inr a, w')
    | (inl e, w') => h e w'
    end.

Definition emit (ev : event) : M unit :=
  fun w => (inr tt, World (fs w) (trace w ++ [ev])).

Declare Scope js_scope.
Delimit Scope js_scope with js.
Notation "x <- m ;; k" := (bind m (fun x => k))
  (at level 100, m at next level, right associativity) : js_scope.
Notation "m ;;; k" := (bind m (fun _ => k))
  (at level 100, right associativity) : js_scope.
Open Scope js_scope.

(** The external collaborators of the service.
    - [recognize path files] is the text [Tesseract.recognize] resolves
      to, or the error it rejects with;
    - [completion prompt url] is [response.choices[0].message.content]
      of the chat completion ([None] is [null]), or the error thrown on
      the way to it;
    - [base64] is [Buffer.prototype.toString('base64')]. *)
Record env := Env {
  recognize : jsstring -> gmap jsstring (list N) -> exn + jsstring;
  completion : jsstring -> jsstring -> exn + option jsstring;
  base64 : list N -> jsstring
}.

Definition of_sum {A} (r : exn + A) : M A :=
  match r with
  | inr a => ret a
  | inl e => throw e
  end.

Definition ENOENT (syscall path : jsstring) : exn :=
  Error (u "ENOENT: no such file or directory, " ++ syscall ++
         u " '" ++ path ++ u "'").

(** [fs.readFileSync(path)] *)
Definition readFileSync (path : jsstring) : M (list N) :=
  fun w =>
    match fs w !! path with
    | Some bytes => (inr bytes, w)
    | None => (inl (ENOENT (u "open") path), w)
    end.

(** [fs.existsSync(path)] *)
Definition existsSync (path : jsstring) : M bool :=
  fun w => (inr (bool_decide (is_Some (fs w !! path))), w).

(** [fs.unlinkSync(path)] *)
Definition unlinkSync (path : jsstring) : M unit :=
  fun w =>
    match fs w !! path with
    | Some _ => (inr tt, World (delete path (fs w)) (trace w ++ [Unlink path]))
    | None => (inl (ENOENT (u "unlink") path), w)
    end.

(** [await Tesseract.recognize(path, 'eng', ...)], its [data.text] *)
Definition Tesseract_recognize (e : env) (path : jsstring) : M jsstring :=
  emit (Recognize path) ;;;
  fun w => of_sum (recognize e path (fs w)) w.

(** [await openai.chat.completions.create(...)] with the one user
    message of the source (text and image), read down to
    [choices[0].message.content]. *)
Definition chat_completions_create (e : env) (prompt image_url : jsstring)
  : M (option jsstring) :=
  emit (ChatCompletion prompt image_url) ;;;
  of_sum (completion e prompt image_url).

Definition TypeError (msg : jsstring) : exn := Error msg.
Definition SyntaxError : exn := Error (u "Unexpected token in JSON").

(** The receiver of a string method: calling a method on [null] throws. *)
Definition receiver (method : jsstring) (s : option jsstring) : M jsstring :=
  match s with
  | Some v => ret v
  | None =>
      throw (TypeError (u "Cannot read properties of null (reading '" ++
                        method ++ u "')"))
  end.

(** [JSON.parse(s)] *)
Definition JSON_parse (s : jsstring) : M json :=
  match JSON.parse s with
  | Some v => ret v
  | None => throw SyntaxError
  end.

(** [v.k] for one of the property names the handler reads: none of them
    is [length], an index or a property of a built-in prototype, so
    only an object can have it, and [null] has no properties at all. *)
Definition get_field (v : json) (k : jsstring) : M (option json) :=
  match v with
  | JNull =>
      throw (TypeError (u "Cannot read properties of null (reading '" ++
                        k ++ u "')"))
  | JObject ms => ret (own_property k ms)
  | _ => ret None
  end.

(** [res.status(status).json(body)] *)
Definition res_json (status : N) (body : json) : M unit :=
  emit (Respond status body).

(** [m ? m[1] : null] *)
Definition group1_or_null (m : option match_result) : option json :=
  match m with
  | Some r => JString <$> group1 r
  | None => Some JNull
  end.

(** The file multer hands to the handler as [req.file]. *)
Record multer_file := MulterFile {
  originalname : jsstring;
  mimetype : jsstring;
  path : jsstring
}.

End Node.
Import Node.

(** ** src/server/server.js *)

Module Server.

Definition nl : jsstring := [newline].

(** The template literal [prompt], before and after [${ocrText}]. *)
Definition prompt_head : jsstring :=
  nl ++
  u "    Analyze this image and the OCR text below to extract BOL (Bill of Lading) information." ++ nl ++
  u "    " ++ nl ++
  u "    OCR Text:" ++ nl ++
  u "    ".

Definition prompt_tail : jsstring :=
  nl ++
  u "    " ++ nl ++
  u "    Please extract and return ONLY:" ++ nl ++
  u "    1. BOL Number (Bill of Lading number)" ++ nl ++
  u "    2. Weight - Priority order (return the FIRST one you find):" ++ nl ++
  u "       - Net Weight or Net (highest priority)" ++ nl ++
  u "       - Shipping Weight (second priority)  " ++ nl ++
  u "       - Any other weight including Gross Weight (lowest priority)" ++ nl ++
  u "    3. Weight Type - specify which type was found (e.g., " ++
    q ++ u "Net Weight" ++ q ++ u ", " ++
    q ++ u "Shipping Weight" ++ q ++ u ", " ++
    q ++ u "Gross Weight" ++ q ++ u ", " ++
    q ++ u "Weight" ++ q ++ u ")" ++ nl ++
  u "    " ++ nl ++
  u "    Return the response in this exact JSON format:" ++ nl ++
  u "    {" ++ nl ++
  u "      " ++ q ++ u "bolNumber" ++ q ++ u ": " ++
    q ++ u "extracted BOL number or null if not found" ++ q ++ u "," ++ nl ++
  u "      " ++ q ++ u "weight" ++ q ++ u ": " ++
    q ++ u "extracted weight with units or null if not found" ++ q ++ u "," ++ nl ++
  u "      " ++ q ++ u "weightType" ++ q ++ u ": " ++
    q ++ u "type of weight found (Net Weight, Shipping Weight, Gross Weight, etc.) or null" ++ q ++ nl ++
  u "    }" ++ nl ++
  u "    " ++ nl ++
  u "    If you cannot find either value, return null for that field." ++ nl ++
  u "    ".

Definition prompt (ocrText : jsstring) : jsstring :=
  prompt_head ++ ocrText ++ prompt_tail.

(** The two code-fence patterns: three backticks, [json] for the first,
    and an optional line feed. *)
Definition fence_json : regex := Seq (lit (u "```json")) (Opt (Chr newline)).
Definition fence : regex := Seq (lit (u "```")) (Opt (Chr newline)).

(** The pattern of one field: the quoted name, a colon, any white
    space, and a quoted run of one or more characters other than the
    quote, which is the capture. *)
Definition field_pattern (name : jsstring) : regex :=
  Seq (lit (q ++ name ++ q ++ u ":"))
    (Seq (Star is_whitespace)
       (Seq (Chr quote)
          (Seq (Grp (Plus (fun c => negb (c =? quote))))
             (Chr quote)))).

Definition bolNumber_pattern : regex := field_pattern (u "bolNumber").
Definition weight_pattern : regex := field_pattern (u "weight").
Definition weightType_pattern : regex := field_pattern (u "weightType").

(** The [try] block: strip the code fences, trim, parse. *)
Definition strict_parse (result : option jsstring) : M json :=
  r <- receiver (u "replace") result ;;
  let cleanResult :=
    trim (String_replace (String_replace r fence_json []) fence []) in
  JSON_parse cleanResult.

(** The [catch] block: each field from its own pattern, on [result]. *)
Definition manual_extraction (result : option jsstring) : M json :=
  r <- receiver (u "match") result ;;
  let bolMatch := String_match r bolNumber_pattern in
  let weightMatch := String_match r weight_pattern in
  let weightTypeMatch := String_match r weightType_pattern in
  ret (object_literal
         [ (u "bolNumber", group1_or_null bolMatch);
           (u "weight", group1_or_null weightMatch);
           (u "weightType", group1_or_null weightTypeMatch) ]).

Definition processImageForBOLData (e : env) (imagePath ocrText : jsstring)
  : M json :=
  imageBuffer <- readFileSync imagePath ;;
  let base64Image := base64 e imageBuffer in
  result <- chat_completions_create e (prompt ocrText)
              (u "data:image/jpeg;base64," ++ base64Image) ;;
  try_catch (strict_parse result)
    (fun parseError => manual_extraction result).

(** [app.post('/api/process-image', upload.single('image'), ...)]:
    the handler, given [req.file]. *)
Definition process_image (e : env) (req_file : option multer_file)
  : M unit :=
  match req_file with
  | None =>
      res_json 400
        (object_literal
           [ (u "error", Some (JString (u "No image file provided"))) ])
  | Some file =>
      let imagePath := path file in
      try_catch
        (text <- Tesseract_recognize e imagePath ;;
         extractedData <- processImageForBOLData e imagePath text ;;
         unlinkSync imagePath ;;;
         bolNumber <- get_field extractedData (u "bolNumber") ;;
         weight <- get_field extractedData (u "weight") ;;
         weightType <- get_field extractedData (u "weightType") ;;
         res_json 200
           (object_literal
              [ (u "success", Some (JBool true));
                (u "data",
                 Some (object_literal
                         [ (u "bolNumber", bolNumber);
                           (u "weight", weight);
                           (u "weightType", weightType);
                           (u "rawOcrText",
                            Some (JString (substring0 500 text))) ])) ]))
        (fun error =>
           stillThere <- existsSync imagePath ;;
           (if stillThere then unlinkSync imagePath else ret tt) ;;;
           res_json 500
             (object_literal
                [ (u "error", Some (JString (u "Failed to process image")));
                  (u "details", Some (JString (message error))) ]))
  end.

End Server.

(** ** src/unnamed/part_001 *)

Module ServerAlt.

Definition nl : jsstring := [newline].

(** The template literal [prompt], before and after [${ocrText}]. *)
Definition prompt_head : jsstring :=
  nl ++
  u "    Analyze this image and the OCR text below to extract BOL (Bill of Lading) information." ++ nl ++
  u "    " ++ nl ++
  u "    OCR Text:" ++ nl ++
  u "    ".

Definition prompt_tail : jsstring :=
  nl ++
  u "    " ++ nl ++
  u "    Please extract and return ONLY:" ++ nl ++
  u "    1. BOL Number (Bill of Lading number)" ++ nl ++
  u "    2. Weight - Priority order (return the FIRST one you find):" ++ nl ++
  u "       - Net Weight or Net (highest priority)" ++ nl ++
  u "       - Shipping Weight (second priority)  " ++ nl ++
  u "       - Any other weight including Gross Weight (lowest priority)" ++ nl ++
  u "    3. Weight Type - specify which type was found (e.g., " ++
    q ++ u "Net Weight" ++ q ++ u ", " ++
    q ++ u "Shipping Weight" ++ q ++ u ", " ++
    q ++ u "Gross Weight" ++ q ++ u ", " ++
    q ++ u "Weight" ++ q ++ u ")" ++ nl ++
  u "    " ++ nl ++
  u "    Return the response in this exact JSON format:" ++ nl ++
  u "    {" ++ nl ++
  u "      " ++ q ++ u "bolNumber" ++ q ++ u ": " ++
    q ++ u "extracted BOL number or null if not found" ++ q ++ u "," ++ nl ++
  u "      " ++ q ++ u "weight" ++ q ++ u ": " ++
    q ++ u "extracted weight with units or null if not found" ++ q ++ u "," ++ nl ++
  u "      " ++ q ++ u "weightType" ++ q ++ u ": " ++
    q ++ u "type of weight found (Net Weight, Shipping Weight, Gross Weight, etc.) or null" ++ q ++ nl ++
  u "    }" ++ nl ++
  u "    " ++ nl ++
  u "    If you cannot find either value, return null for that field." ++ nl ++
  u "    ".

Definition prompt (ocrText : jsstring) : jsstring :=
  prompt_head ++ ocrText ++ prompt_tail.

(** The two code-fence patterns: three backticks, [json] for the first,
    and an optional line feed. *)
Definition fence_json : regex := Seq (lit (u "```json")) (Opt (Chr newline)).
Definition fence : regex := Seq (lit (u "```")) (Opt (Chr newline)).

(** The pattern of one field: the quoted name, a colon, any white
    space, and a quoted run of one or more characters other than the
    quote, which is the capture. *)
Definition field_pattern (name : jsstring) : regex :=
  Seq (lit (q ++ name ++ q ++ u ":"))
    (Seq (Star is_whitespace)
       (Seq (Chr quote)
          (Seq (Grp (Plus (fun c => negb (c =? quote))))
             (Chr quote)))).

Definition bolNumber_pattern : regex := field_pattern (u "bolNumber").
Definition weight_pattern : regex := field_pattern (u "weight").
Definition weightType_pattern : regex := field_pattern (u "weightType").

(** The [try] block: strip the code fences, trim, parse. *)
Definition strict_parse (result : option jsstring) : M json :=
  r <- receiver (u "replace") result ;;
  let cleanResult :=
    trim (String_replace (String_replace r fence_json []) fence []) in
  JSON_parse cleanResult.

(** The [catch] block: each field from its own pattern, on [result]. *)
Definition manual_extraction (result : option jsstring) : M json :=
  r <- receiver (u "match") result ;;
  let bolMatch := String_match r bolNumber_pattern in
  let weightMatch := String_match r weight_pattern in
  let weightTypeMatch := String_match r weightType_pattern in
  ret (object_literal
         [ (u "bolNumber", group1_or_null bolMatch);
           (u "weight", group1_or_null weightMatch);
           (u "weightType", group1_or_null weightTypeMatch) ]).

(** The body sits in a [try] whose [catch] logs the error and throws
    it again. *)
Definition processImageForBOLData (e : env) (imagePath ocrText : jsstring)
  : M json :=
  try_catch
    (imageBuffer <- readFileSync imagePath ;;
     let base64Image := base64 e imageBuffer in
     result <- chat_completions_create e (prompt ocrText)
                 (u "data:image/jpeg;base64," ++ base64Image) ;;
     try_catch (strict_parse result)
       (fun parseError => manual_extraction result))
    (fun error => throw error).

(** [app.post('/api/process-image', upload.single('image'), ...)]:
    the handler, given [req.file]. *)
Definition process_image (e : env) (req_file : option multer_file)
  : M unit :=
  match req_file with
  | None =>
      res_json 400
        (object_literal
           [ (u "error", Some (JString (u "No image file provided"))) ])
  | Some file =>
      let imagePath := path file in
      try_catch
        (text <- Tesseract_recognize e imagePath ;;
         extractedData <- processImageForBOLData e imagePath text ;;
         unlinkSync imagePath ;;;
         bolNumber <- get_field extractedData (u "bolNumber") ;;
         weight <- get_field extractedData (u "weight") ;;
         weightType <- get_field extractedData (u "weightType") ;;
         res_json 200
           (object_literal
              [ (u "success", Some (JBool true));
                (u "data",
                 Some (object_literal
                         [ (u "bolNumber", bolNumber);
                           (u "weight", weight);
                           (u "weightType", weightType);
                           (u "rawOcrText",
                            Some (JString (substring0 500 text))) ])) ]))
        (fun error =>
           stillThere <- existsSync imagePath ;;
           (if stillThere then unlinkSync imagePath else ret tt) ;;;
           res_json 500
             (object_literal
                [ (u "error", Some (JString (u "Failed to process image")));
                  (u "details", Some (JString (message error))) ]))
  end.

End ServerAlt.

(** ** src/unnamed/part_000: the upload and display component *)

Module Client.

(** [interface ProcessedData] *)
Module ProcessedData.
Record t := Make {
  bolNumber : option jsstring;       (* string | null *)
  weight : option jsstring;
  weightType : option jsstring;
  rawOcrText : jsstring
}.
End ProcessedData.

(** [interface ApiResponse].  The error responses of the service carry
    no [data], whatever the declared type says, so [data] is optional;
    [success] missing reads as [false]. *)
Module ApiResponse.
Record t := Make {
  success : bool;
  data : option ProcessedData.t;
  error : option jsstring
}.
End ApiResponse.

(** The [useState] cells of [App]. *)
Record state := State {
  bolNumber : jsstring;
  weight : jsstring;
  weightType : jsstring;
  isProcessing : bool;
  dragOver : bool;
  message : jsstring;
  uploadedImage : option jsstring
}.

Definition setBolNumber (v : jsstring) (st : state) : state :=
  State v (weight st) (weightType st) (isProcessing st) (dragOver st)
    (message st) (uploadedImage st).
Definition setWeight (v : jsstring) (st : state) : state :=
  State (bolNumber st) v (weightType st) (isProcessing st) (dragOver st)
    (message st) (uploadedImage st).
Definition setWeightType (v : jsstring) (st : state) : state :=
  State (bolNumber st) (weight st) v (isProcessing st) (dragOver st)
    (message st) (uploadedImage st).
Definition setIsProcessing (v : bool) (st : state) : state :=
  State (bolNumber st) (weight st) (weightType st) v (dragOver st)
    (message st) (uploadedImage st).
Definition setDragOver (v : bool) (st : state) : state :=
  State (bolNumber st) (weight st) (weightType st) (isProcessing st) v
    (message st) (uploadedImage st).
Definition setMessage (v : jsstring) (st : state) : state :=
  State (bolNumber st) (weight st) (weightType st) (isProcessing st)
    (dragOver st) v (uploadedImage st).
Definition setUploadedImage (v : option jsstring) (st : state) : state :=
  State (bolNumber st) (weight st) (weightType st) (isProcessing st)
    (dragOver st) (message st) v.

(** The initial values given to [useState]. *)
Definition initial : state := State [] [] [] false false [] None.

(** A [File] of the browser. *)
Record File := MkFile {
  name : jsstring;
  type : jsstring;
  content : list N
}.

(** What the component asks of the browser. *)
Inductive effect : Type :=
| ReadAsDataURL (file : File)
| Fetch (url method : jsstring) (formData : list (jsstring * File)).

(** What [await fetch(...)] followed by [await response.json()] comes
    to: a parsed body, or something thrown. *)
Inductive fetched : Type :=
| Body (result : ApiResponse.t)
| ThrownError (message : jsstring)     (* an instance of [Error] *)
| ThrownOther.

(** Truthiness of a [string | null]. *)
Definition truthy (v : option jsstring) : bool :=
  match v with
  | Some (_ :: _) => true
  | _ => false
  end.

(** [v || ''] *)
Definition or_empty (v : option jsstring) : jsstring :=
  match v with
  | Some (c :: s) => c :: s
  | _ => []
  end.

(** A value inside a template literal. *)
Definition interpolate (v : option jsstring) : jsstring :=
  match v with
  | Some s => s
  | None => u "undefined"
  end.

(** [import.meta.env.VITE_BACKEND_URL || 'http://localhost:5001'] *)
Definition BACKEND_URL (VITE_BACKEND_URL : option jsstring) : jsstring :=
  if truthy VITE_BACKEND_URL then or_empty VITE_BACKEND_URL
  else u "http://localhost:5001".

(** [processImage] up to its first [await]: the state updates and the
    requests made of the browser. *)
Definition processImage_start (backend : jsstring) (file : File)
           (st : state) : state * list effect :=
  let st := setIsProcessing true st in
  let st := setMessage (u "Processing image...") st in
  let st := setBolNumber [] st in
  let st := setWeight [] st in
  let formData := [(u "image", file)] in
  (st, [ ReadAsDataURL file;
         Fetch (backend ++ u "/api/process-image") (u "POST") formData ]).

(** [reader.onload]: [e.target?.result] is the data URL, or nothing. *)
Definition reader_onload (result : option jsstring) (st : state) : state :=
  if truthy result then setUploadedImage (Some (or_empty result)) st
  else st.

(** The body of the [try] once the response has been parsed; [None]
    when reading [result.data.bolNumber] throws. *)
Definition on_result (result : ApiResponse.t) (st : state) : option state :=
  if ApiResponse.success result then
    match ApiResponse.data result with
    | None => None
    | Some data =>
        let st := setBolNumber (or_empty (ProcessedData.bolNumber data)) st in
        let st := setWeight (or_empty (ProcessedData.weight data)) st in
        let st := setWeightType (or_empty (ProcessedData.weightType data)) st in
        let st := setMessage (u "Image processed successfully!") st in
        Some
          (if negb (truthy (ProcessedData.bolNumber data)) &&
              negb (truthy (ProcessedData.weight data))
           then setMessage (u "No BOL number or weight found in the image. Please try a clearer image.") st
           else st)
    end
  else
    Some (setMessage (u "Error: " ++ interpolate (ApiResponse.error result)) st).

(** The [catch] block. *)
Definition on_thrown (msg : option jsstring) (st : state) : state :=
  setMessage (u "Failed to process image: " ++
              match msg with
              | Some m => m
              | None => u "Unknown error"
              end) st.

(** [processImage] from the first [await] to its end. *)
Definition processImage_finish (r : fetched) (st : state) : state :=
  let st :=
    match r with
    | Body result =>
        match on_result result st with
        | Some st' => st'
        | None =>
            on_thrown
              (Some (u "Cannot read properties of undefined (reading 'bolNumber')"))
              st
        end
    | ThrownError m => on_thrown (Some m) st
    | ThrownOther => on_thrown None st
    end in
  setIsProcessing false st.

(** [handleDrop], given [e.dataTransfer.files]. *)
Definition handleDrop (backend : jsstring) (files : list File) (st : state)
  : state * list effect :=
  let st := setDragOver false st in
  match files with
  | file :: _ =>
      if startsWith (u "image/") (type file)
      then processImage_start backend file st
      else (setMessage (u "Please drop an image file (PNG, JPG, etc.)") st, [])
  | [] => (st, [])
  end.

(** [handleFileInput], given [e.target.files?.[0]]. *)
Definition handleFileInput (backend : jsstring) (file : option File)
           (st : state) : state * list effect :=
  match file with
  | Some f => processImage_start backend f st
  | None => (st, [])
  end.

(** [clearData] *)
Definition clearData (st : state) : state :=
  let st := setBolNumber [] st in
  let st := setWeight [] st in
  let st := setWeightType [] st in
  let st := setMessage [] st in
  setUploadedImage None st.

End Client.

(** ** What the claims speak of

    The vocabulary of the specification, to state the theorems with. *)

Module Spec.

(** The longest prefix of [s] made of characters in [p], and what
    follows it. *)
Fixpoint take_while (p : char16 -> bool) (s : jsstring) : jsstring :=
  match s with
  | c :: s' => if p c then c :: take_while p s' else []
  | [] => []
  end.

Fixpoint drop_while (p : char16 -> bool) (s : jsstring) : jsstring :=
  match s with
  | c :: s' => if p c then drop_while p s' else s
  | [] => []
  end.

Definition not_quote (c : char16) : bool := negb (c =? quote).

(** The quoted name of a field and its colon. *)
Definition field_key (name : jsstring) : jsstring :=
  q ++ name ++ q ++ u ":".

(** The three fields of an extraction result. *)
Definition field_names : list jsstring :=
  [u "bolNumber"; u "weight"; u "weightType"].

(** The text [s] holds, right after [pre], the field [name] in the
    shape key, white space, quoted value, with the non-empty value [v]. *)
Definition occurs_at (name pre v s : jsstring) : Prop :=
  exists ws post,
    s = pre ++ field_key name ++ ws ++ quote :: v ++ quote :: post /\
    Forall (fun c => is_whitespace c = true) ws /\
    v <> [] /\
    quote ∉ v.

(** [v] is the value of the leftmost such occurrence. *)
Definition first_occurrence (name v s : jsstring) : Prop :=
  exists pre,
    occurs_at name pre v s /\
    forall pre' v', occurs_at name pre' v' s -> (length pre <= length pre')%nat.

Definition no_occurrence (name s : jsstring) : Prop :=
  forall pre v, ~ occurs_at name pre v s.

(** The field pattern run by hand at the start of [s]. *)
Definition field_at (name s : jsstring)
  : option (jsstring * option jsstring) :=
  if startsWith (field_key name) s then
    match drop_while is_whitespace (drop (length (field_key name)) s) with
    | c :: s2 =>
        if c =? quote then
          match take_while not_quote s2, drop_while not_quote s2 with
          | (_ :: _) as v, d :: rest =>
              if d =? quote then Some (rest, Some v) else None
          | _, _ => None
          end
        else None
    | [] => None
    end
  else None.

(** The completion as [JSON.parse] sees it in the [try] block. *)
Definition cleaned (result : jsstring) : jsstring :=
  trim (String_replace (String_replace result Server.fence_json [])
          Server.fence []).

(** The value the fallback gives a field, read off the text it is
    handed. *)
Definition recovered (name text : jsstring) : option json :=
  group1_or_null (String_match text (Server.field_pattern name)).

(** The object the [catch] block builds from the raw completion. *)
Definition fallback_object (result : jsstring) : json :=
  object_literal
    [ (u "bolNumber", recovered (u "bolNumber") result);
      (u "weight", recovered (u "weight") result);
      (u "weightType", recovered (u "weightType") result) ].

(** The image as the model receives it. *)
Definition image_url (e : env) (bytes : list N) : jsstring :=
  u "data:image/jpeg;base64," ++ base64 e bytes.

(** [extractedData.k] once [extractedData] is known not to be null. *)
Definition field_of (extractedData : json) (k : jsstring) : option json :=
  match extractedData with
  | JObject ms => own_property k ms
  | _ => None
  end.

(** The body of the success response. *)
Definition success_body (extractedData : json) (text : jsstring) : json :=
  object_literal
    [ (u "success", Some (JBool true));
      (u "data",
       Some (object_literal
               [ (u "bolNumber", field_of extractedData (u "bolNumber"));
                 (u "weight", field_of extractedData (u "weight"));
                 (u "weightType", field_of extractedData (u "weightType"));
                 (u "rawOcrText", Some (JString (substring0 500 text))) ])) ].

(** The body of the server-error response. *)
Definition failure_body (error : exn) : json :=
  object_literal
    [ (u "error", Some (JString (u "Failed to process image")));
      (u "details", Some (JString (message error))) ].

(** What the [catch] block of the handler comes to: the file is gone
    afterwards, deleted now if it was still there, and the server-error
    response is sent. *)
Definition failure (imagePath : jsstring) (error : exn) (w : world)
  : (exn + unit) * world :=
  (inr tt,
   World (delete imagePath (fs w))
     (trace w ++
      (if bool_decide (is_Some (fs w !! imagePath))
       then [Unlink imagePath] else []) ++
      [Respond 500 (failure_body error)])).

(** The parts of the instruction the specification names. *)
Definition priority_rule : jsstring :=
  u "2. Weight - Priority order (return the FIRST one you find):" ++ [newline] ++
  u "       - Net Weight or Net (highest priority)" ++ [newline] ++
  u "       - Shipping Weight (second priority)  " ++ [newline] ++
  u "       - Any other weight including Gross Weight (lowest priority)".

Definition json_shape : jsstring :=
  u "{" ++ [newline] ++
  u "      " ++ q ++ u "bolNumber" ++ q ++ u ": " ++
    q ++ u "extracted BOL number or null if not found" ++ q ++ u "," ++
    [newline] ++
  u "      " ++ q ++ u "weight" ++ q ++ u ": " ++
    q ++ u "extracted weight with units or null if not found" ++ q ++ u "," ++
    [newline] ++
  u "      " ++ q ++ u "weightType" ++ q ++ u ": " ++
    q ++ u "type of weight found (Net Weight, Shipping Weight, Gross Weight, etc.) or null" ++
    q ++ [newline] ++
  u "    }".

Definition null_instruction : jsstring :=
  u "If you cannot find either value, return null for that field.".

(** A run of the handler from a fresh trace. *)
Definition run (h : M unit) (files : gmap jsstring (list N))
  : (exn + unit) * world :=
  h (World files []).

Definition is_respond (ev : event) : bool :=
  match ev with
  | Respond _ _ => true
  | _ => false
  end.

(** A call that leaves the process: the OCR engine or the model. *)
Definition is_external_call (ev : event) : bool :=
  match ev with
  | Recognize _ | ChatCompletion _ _ => true
  | _ => false
  end.

(** [body.data.k] of a response body. *)
Definition data_field (body : json) (k : jsstring) : option json :=
  match body with
  | JObject ms =>
      match own_property (u "data") ms with
      | Some (JObject ds) => own_property k ds
      | _ => None
      end
  | _ => None
  end.

(** A run that ended well for the uploaded file at [p]: the handler
    returned, the file is not on disk, the response is the last thing
    that happened and the only response, and a file that was there at
    the start was deleted before it. *)
Definition settled (p : jsstring) (files : gmap jsstring (list N))
           (rw : (exn + unit) * world) : Prop :=
  rw.1 = inr tt /\
  fs rw.2 !! p = None /\
  exists evs status body,
    trace rw.2 = evs ++ [Respond status body] /\
    Forall (fun ev => is_respond ev = false) evs /\
    (is_Some (files !! p) -> Unlink p ∈ evs).

End Spec.
Import Spec.

(** ** Sample inputs *)

Module Sample.

Definition file : multer_file :=
  MulterFile (u "bol.png") (u "image/png") (u "uploads/1700000000000-bol.png").

(** The upload directory with the one uploaded file in it. *)
Definition files : gmap jsstring (list N) :=
  {[ path file := [137; 80; 78; 71] ]}.

(** An OCR text of 620 characters. *)
Definition text : jsstring :=
  u "BOL No. 4471 Net Weight: 500 lbs Gross Weight: 600 lbs" ++
  concat (replicate 283 (u " .")).

(** A completion inside a code fence, with a null field. *)
Definition fenced_json : jsstring :=
  u "```json" ++ [newline] ++
  u "{" ++ q ++ u "bolNumber" ++ q ++ u ": " ++ q ++ u "4471" ++ q ++ u ", " ++
  q ++ u "weight" ++ q ++ u ": " ++ q ++ u "500 lbs" ++ q ++ u ", " ++
  q ++ u "weightType" ++ q ++ u ": null}" ++ [newline] ++
  u "```".

Definition parsed_json : json :=
  JObject [ (u "bolNumber", JString (u "4471"));
            (u "weight", JString (u "500 lbs"));
            (u "weightType", JNull) ].

(** A completion that is not JSON: prose around the fields, an empty
    weight, no weight type. *)
Definition chatty : jsstring :=
  u "Here is what I found: " ++
  q ++ u "bolNumber" ++ q ++ u ":  " ++ q ++ u "4471" ++ q ++ u ", " ++
  q ++ u "weight" ++ q ++ u ": " ++ q ++ q ++ u ".".

(** A completion that is not JSON and whose value holds a code fence. *)
Definition fence_in_value : jsstring :=
  q ++ u "weight" ++ q ++ u ": " ++ q ++ u "```500 lbs" ++ q.

(** An engine that reads [text] and a model that answers [answer]. *)
Definition env_with (answer : jsstring) : env :=
  Env (fun _ _ => inr text)
      (fun _ _ => inr (Some answer))
      (fun _ => u "iVBORw==").

Definition world0 : world := World files [].

(** The success response for [fenced_json]. *)
Definition response : json :=
  JObject
    [ (u "success", JBool true);
      (u "data",
       JObject [ (u "bolNumber", JString (u "4471"));
                 (u "weight", JString (u "500 lbs"));
                 (u "weightType", JNull);
                 (u "rawOcrText", JString (take 500 text)) ]) ].

End Sample.

(** ** src/server/server.js: the upload configuration and the other routes *)

Module Upload.

(** What reaches the error-handling middleware: an [Error], or a
    [multer.MulterError] with its [code]. *)
Inductive failure : Type :=
| PlainError (error : exn)
| MulterError (code message : jsstring).

Definition failure_message (f : failure) : jsstring :=
  match f with
  | PlainError error => Node.message error
  | MulterError _ m => m
  end.

(** [Date.now() + '-' + file.originalname], the [filename] callback of
    the disk storage.  [now] is the number of milliseconds [Date.now()]
    returns, written in decimal as a number below 10^21 is. *)
Definition filename (now : N) (originalname : jsstring) : jsstring :=
  u (pretty now) ++ u "-" ++ originalname.

(** The [fileFilter] callback: [cb(null, true)] is [inr true],
    [cb(new Error(...), false)] is the error. *)
Definition fileFilter (mimetype : jsstring) : failure + bool :=
  if startsWith (u "image/") mimetype then inr true
  else inl (PlainError (Error (u "Only image files are allowed!"))).

(** [limits.fileSize] *)
Definition fileSize : N := 10 * 1024 * 1024.

(** [app.get('/api/health', ...)] *)
Definition health : M unit :=
  res_json 200
    (object_literal [ (u "status", Some (JString (u "Server is running"))) ]).

(** The error-handling middleware, [app.use((error, req, res, next) => ...)]. *)
Definition error_middleware (error : failure) : M unit :=
  match error with
  | MulterError code _ =>
      if bool_decide (code = u "LIMIT_FILE_SIZE") then
        res_json 400
          (object_literal [ (u "error", Some (JString (u "File too large"))) ])
      else
        res_json 500
          (object_literal
             [ (u "error", Some (JString (failure_message error))) ])
  | PlainError _ =>
      res_json 500
        (object_literal
           [ (u "error", Some (JString (failure_message error))) ])
  end.

(** A file refused by [fileFilter]: multer hands the error to [next],
    and Express to the error-handling middleware; the route handler does
    not run. *)
Definition refused (mimetype : jsstring) : option (M unit) :=
  match fileFilter mimetype with
  | inl error => Some (error_middleware error)
  | inr _ => None
  end.

End Upload.

(** ** src/unnamed/part_000: what the component renders *)

Module View.

Inductive colour : Type := Red | Green | Blue.

(** The class of the message box. *)
Definition message_colour (message : jsstring) : colour :=
  if includes (u "Error") message || includes (u "Failed") message then Red
  else if includes (u "successfully") message then Green
  else Blue.

(** Truthiness of a string. *)
Definition nonempty (s : jsstring) : bool :=
  match s with
  | [] => false
  | _ :: _ => true
  end.

(** [{message && (...)}] *)
Definition shows_message (st : Client.state) : bool :=
  nonempty (Client.message st).

(** [{uploadedImage && (...)}] *)
Definition shows_preview (st : Client.state) : bool :=
  Client.truthy (Client.uploadedImage st).

(** [{weightType && <span>({weightType})</span>}] *)
Definition shows_weight_type (st : Client.state) : bool :=
  nonempty (Client.weightType st).

(** [{(bolNumber || weight || uploadedImage) && (<button ...>)}] *)
Definition shows_clear_button (st : Client.state) : bool :=
  nonempty (Client.bolNumber st) || nonempty (Client.weight st) ||
  Client.truthy (Client.uploadedImage st).

(** [handleDragOver] and [handleDragLeave] *)
Definition handleDragOver (st : Client.state) : Client.state :=
  Client.setDragOver true st.
Definition handleDragLeave (st : Client.state) : Client.state :=
  Client.setDragOver false st.

End View.

(** ** What the further theorems speak of *)

Module Outcome.

(** The request gets the success response: the OCR engine returned a
    text, the file could be read, the model returned a text, and that
    text is not the JSON [null]. *)
Definition extraction_succeeds (e : env) (file : multer_file)
           (files : gmap jsstring (list N)) : bool :=
  match recognize e (path file) files, files !! path file with
  | inr text, Some bytes =>
      match completion e (Server.prompt text) (image_url e bytes) with
      | inr (Some result) =>
          match JSON.parse (cleaned result) with
          | Some JNull => false
          | _ => true
          end
      | _ => false
      end
  | _, _ => false
  end.

(** The calls that leave the process, in order. *)
Definition external_calls (evs : list event) : list event :=
  List.filter is_external_call evs.

(** The status of the last response of a trace. *)
Definition last_status (evs : list event) : option N :=
  match last evs with
  | Some (Respond status _) => Some status
  | _ => None
  end.

(** The body of the last response of a trace. *)
Definition last_body (evs : list event) : option json :=
  match last evs with
  | Some (Respond _ body) => Some body
  | _ => None
  end.

Definition backtick : char16 := 96.

(** The two ways the model wraps its answer. *)
Definition fenced_json (body : jsstring) : jsstring :=
  u "```json" ++ [newline] ++ body ++ [newline] ++ u "```".
Definition fenced (body : jsstring) : jsstring :=
  u "```" ++ [newline] ++ body ++ [newline] ++ u "```".

(** The messages of the component. *)
Definition msg_success : jsstring := u "Image processed successfully!".
Definition msg_nothing : jsstring :=
  u "No BOL number or weight found in the image. Please try a clearer image.".

(** An OCR engine that fails. *)
Definition env_ocr_fails : env :=
  Env (fun _ _ => inl (Error (u "Error attempting to read image.")))
      (fun _ _ => inr (Some (u "{}")))
      (fun _ => u "iVBORw==").

(** A model call that fails. *)
Definition env_model_fails : env :=
  Env (fun _ _ => inr Sample.text)
      (fun _ _ => inl (Error (u "429 You exceeded your current quota")))
      (fun _ => u "iVBORw==").

(** The way a completion can hold a body inside surrounding code-fence
    markup: bare, in a fence tagged [json], or in a plain fence. *)
Definition wraps (completion body : jsstring) : Prop :=
  completion = body \/
  completion = fenced_json body \/
  completion = fenced body.

(** A parsing outcome with the character [c] added behind what is left
    of the text. *)
Definition followed_by {A} (c : char16) (r : presult A) : presult A :=
  match r with
  | Parsed a rest => Parsed a (rest ++ [c])
  | Invalid => Invalid
  | OutOfFuel => OutOfFuel
  end.


(** A JSON text whose BOL number holds three backticks. *)
Definition backtick_json : jsstring :=
  u "{" ++ q ++ u "bolNumber" ++ q ++ u ": " ++ q ++ u "AB```12" ++ q ++ u ", " ++
  q ++ u "weight" ++ q ++ u ": null, " ++
  q ++ u "weightType" ++ q ++ u ": null}".

(** A JSON text with white space around it. *)
Definition padded_json : jsstring :=
  [newline] ++ u "  {" ++ q ++ u "bolNumber" ++ q ++ u ": " ++
  q ++ u "4471" ++ q ++ u ", " ++
  q ++ u "weight" ++ q ++ u ": " ++ q ++ u "500 lbs" ++ q ++ u ", " ++
  q ++ u "weightType" ++ q ++ u ": null} " ++ [newline].

End Outcome.
Import Outcome.

(** * Facts about strings and patterns *)

Section StringFacts.

Lemma take_drop_while (p : char16 -> bool) (s : jsstring) :
  take_while p s ++ drop_while p s = s.
Proof.
  induction s as [|c s IH]; simpl; [reflexivity|].
  destruct (p c); simpl; [now rewrite IH | reflexivity].
Qed.

Lemma take_while_all (p : char16 -> bool) (s : jsstring) :
  Forall (fun c => p c = true) (take_while p s).
Proof.
  induction s as [|c s IH]; simpl; [constructor|].
  destruct (p c) eqn:E; constructor; assumption.
Qed.

Lemma drop_while_head (p : char16 -> bool) (s : jsstring) c t :
  drop_while p s = c :: t -> p c = false.
Proof.
  induction s as [|d s IH]; simpl; [discriminate|].
  destruct (p d) eqn:E; [exact IH|].
  intros [= -> _]. exact E.
Qed.

Lemma take_while_app (p : char16 -> bool) (a : jsstring) c t :
  Forall (fun c => p c = true) a -> p c = false ->
  take_while p (a ++ c :: t) = a.
Proof.
  intros Ha Hc. induction Ha as [|x a Hx _ IH]; simpl.
  - now rewrite Hc.
  - now rewrite Hx, IH.
Qed.

Lemma drop_while_app (p : char16 -> bool) (a : jsstring) c t :
  Forall (fun c => p c = true) a -> p c = false ->
  drop_while p (a ++ c :: t) = c :: t.
Proof.
  intros Ha Hc. induction Ha as [|x a Hx _ IH]; simpl.
  - now rewrite Hc.
  - now rewrite Hx, IH.
Qed.

Lemma take_while_length (p : char16 -> bool) (s : jsstring) :
  take (length s - length (drop_while p s)) s = take_while p s.
Proof.
  rewrite <- (take_drop_while p s) at 1 3.
  rewrite length_app.
  replace (length (take_while p s) + length (drop_while p s) -
           length (drop_while p s))%nat
    with (length (take_while p s)) by lia.
  apply take_app_length.
Qed.

Lemma startsWith_app (p s : jsstring) : startsWith p (p ++ s) = true.
Proof.
  induction p as [|a p IH]; simpl; [reflexivity|].
  now rewrite N.eqb_refl, IH.
Qed.

Lemma startsWith_true (p s : jsstring) :
  startsWith p s = true -> s = p ++ drop (length p) s.
Proof.
  revert s. induction p as [|a p IH]; intros [|b s]; simpl;
    try reflexivity; try discriminate.
  intros H. apply andb_true_iff in H as [Hab Hps].
  apply N.eqb_eq in Hab. subst b. f_equal. now apply IH.
Qed.

Lemma whitespace_not_quote c : is_whitespace c = true -> (c =? quote) = false.
Proof.
  intros H. destruct (N.eqb_spec c quote) as [->|]; [discriminate H | reflexivity].
Qed.

Lemma not_quote_forall (v : jsstring) :
  quote ∉ v <-> Forall (fun c => not_quote c = true) v.
Proof.
  unfold not_quote. rewrite Forall_forall. split.
  - intros H c Hc. destruct (N.eqb_spec c quote) as [->|]; [contradiction | reflexivity].
  - intros H Hq. specialize (H _ Hq). now rewrite N.eqb_refl in H.
Qed.

End StringFacts.

Section RegExpFacts.
Context {R : Type}.

(** Greedy iteration never has to give a character back when the rest
    of the pattern cannot start with a character of the class. *)
Lemma star_greedy (p : char16 -> bool) (k : jsstring -> option R) s :
  (forall c t, p c = true -> k (c :: t) = None) ->
  star p k s = k (drop_while p s).
Proof.
  intros Hk. induction s as [|c s IH]; simpl; [reflexivity|].
  destruct (p c) eqn:E; [|reflexivity].
  rewrite IH. destruct (k (drop_while p s)); [reflexivity|].
  now apply Hk.
Qed.

Lemma rmatch_lit (l s : jsstring) cap
      (k : jsstring -> option jsstring -> option R) :
  rmatch (lit l) s cap k =
  if startsWith l s then k (drop (length l) s) cap else None.
Proof.
  revert s. induction l as [|a l IH]; intros s; simpl; [reflexivity|].
  destruct s as [|b s]; [reflexivity|]. simpl.
  rewrite (N.eqb_sym a b). destruct (b =? a); simpl; [apply IH | reflexivity].
Qed.

End RegExpFacts.

Lemma exec_at_field (name s : jsstring) :
  exec_at (Server.field_pattern name) s = field_at name s.
Proof.
  unfold exec_at, Server.field_pattern, field_at. cbn [rmatch].
  rewrite rmatch_lit. fold (field_key name).
  destruct (startsWith (field_key name) s); [|reflexivity].
  rewrite star_greedy.
  2:{ intros c t Hc. now rewrite (whitespace_not_quote c Hc). }
  destruct (drop_while is_whitespace _) as [|c s2]; [reflexivity|].
  destruct (c =? quote); [|reflexivity].
  destruct s2 as [|d s3]; [reflexivity|].
  change (fun c0 : char16 => negb (c0 =? quote)) with not_quote.
  change (negb (d =? quote)) with (not_quote d).
  cbn [take_while drop_while].
  destruct (not_quote d) eqn:Hd.
  2:{ reflexivity. }
  rewrite star_greedy.
  2:{ intros x t Hx. unfold not_quote in Hx.
      destruct (x =? quote); [discriminate Hx | reflexivity]. }
  destruct (drop_while not_quote s3) as [|x rest] eqn:Hdw; [reflexivity|].
  destruct (x =? quote); [|reflexivity].
  pose proof (take_while_length not_quote (d :: s3)) as H.
  cbn [take_while drop_while] in H. rewrite Hd, Hdw in H.
  rewrite H. reflexivity.
Qed.

(** The field pattern matches at the start of [s] exactly when [s] has
    the shape the specification describes. *)
Lemma field_at_Some (name s rest : jsstring) cap :
  field_at name s = Some (rest, cap) ->
  exists ws v,
    cap = Some v /\
    s = field_key name ++ ws ++ quote :: v ++ quote :: rest /\
    Forall (fun c => is_whitespace c = true) ws /\
    v <> [] /\ quote ∉ v.
Proof.
  unfold field_at. intros H.
  destruct (startsWith (field_key name) s) eqn:Hk; [|discriminate].
  apply startsWith_true in Hk.
  destruct (drop_while is_whitespace _) as [|c s2] eqn:Hws; [discriminate|].
  destruct (N.eqb_spec c quote) as [->|]; [|discriminate].
  destruct (take_while not_quote s2) as [|a v] eqn:Hv; [discriminate|].
  destruct (drop_while not_quote s2) as [|d r] eqn:Hr; [discriminate|].
  destruct (N.eqb_spec d quote) as [->|]; [|discriminate].
  injection H as <- <-.
  exists (take_while is_whitespace (drop (length (field_key name)) s)), (a :: v).
  split; [reflexivity|]. split.
  - rewrite Hk at 1. f_equal.
    rewrite <- (take_drop_while is_whitespace (drop _ s)) at 1.
    f_equal. rewrite Hws. f_equal.
    rewrite <- (take_drop_while not_quote s2), Hv, Hr. reflexivity.
  - split; [apply take_while_all|]. split; [discriminate|].
    rewrite not_quote_forall, <- Hv. apply take_while_all.
Qed.

Lemma field_at_shape (name ws v rest : jsstring) :
  Forall (fun c => is_whitespace c = true) ws ->
  v <> [] -> quote ∉ v ->
  field_at name (field_key name ++ ws ++ quote :: v ++ quote :: rest)
  = Some (rest, Some v).
Proof.
  intros Hws Hne Hq. unfold field_at.
  rewrite startsWith_app, drop_app_length.
  rewrite drop_while_app by (assumption || reflexivity).
  rewrite N.eqb_refl.
  apply not_quote_forall in Hq.
  rewrite take_while_app, drop_while_app
    by (assumption || (unfold not_quote; now rewrite N.eqb_refl)).
  destruct v; [contradiction|]. now rewrite N.eqb_refl.
Qed.

(** The leftmost match, position by position. *)
Lemma exec_from_None (r : regex) (i : nat) (s : jsstring) :
  exec_from r i s = None <->
  forall pre suf, s = pre ++ suf -> exec_at r suf = None.
Proof.
  revert i. induction s as [|c s IH]; intros i; simpl.
  - destruct (exec_at r []) as [[s' cap]|] eqn:E; split;
      try discriminate; try reflexivity.
    + intros H. specialize (H [] [] eq_refl). congruence.
    + intros _ pre suf H. symmetry in H. apply app_eq_nil in H as [-> ->].
      exact E.
  - destruct (exec_at r (c :: s)) as [[s' cap]|] eqn:E; split;
      try discriminate.
    + intros H. specialize (H [] (c :: s) eq_refl). congruence.
    + intros H [|d pre] suf Hs; simpl in Hs.
      * now subst suf.
      * injection Hs as -> ->. apply (proj1 (IH (S i)) H pre). reflexivity.
    + intros H. apply IH. intros pre suf ->. apply (H (c :: pre)). reflexivity.
Qed.

Lemma exec_from_Some (r : regex) (i : nat) (s : jsstring) m :
  exec_from r i s = Some m ->
  exists pre suf,
    s = pre ++ suf /\
    exec_at r suf = Some (rest m, group1 m) /\
    forall pre' suf', s = pre' ++ suf' -> (length pre' < length pre)%nat ->
                      exec_at r suf' = None.
Proof.
  revert i. induction s as [|c s IH]; intros i; simpl.
  - destruct (exec_at r []) as [[s' cap]|] eqn:E; [|discriminate].
    intros [= <-]. exists [], []. simpl. split; [reflexivity|].
    split; [exact E|]. intros pre' suf' _ Hlt. lia.
  - destruct (exec_at r (c :: s)) as [[s' cap]|] eqn:E.
    + intros [= <-]. exists [], (c :: s). simpl. split; [reflexivity|].
      split; [exact E|]. intros pre' suf' _ Hlt. lia.
    + intros H. apply IH in H as (pre & suf & -> & Hex & Hmin).
      exists (c :: pre), suf. split; [reflexivity|]. split; [exact Hex|].
      intros [|d pre'] suf' Hs Hlt; simpl in Hs.
      * now subst suf'.
      * injection Hs as -> Hs. apply (Hmin pre' suf' Hs). simpl in Hlt. lia.
Qed.

(** Two prefixes of one text with the same length are the same prefix. *)
Lemma app_same_length (a b c d : jsstring) :
  a ++ b = c ++ d -> length a = length c -> a = c /\ b = d.
Proof.
  intros H Hl. apply app_inj_1 in H; assumption.
Qed.

Lemma occurs_at_exec (name pre v s : jsstring) :
  occurs_at name pre v s <->
  exists suf rest, s = pre ++ suf /\
                   exec_at (Server.field_pattern name) suf = Some (rest, Some v).
Proof.
  split.
  - intros (ws & post & -> & Hws & Hne & Hq).
    eexists _, post. split; [reflexivity|].
    rewrite exec_at_field. now apply field_at_shape.
  - intros (suf & rest & -> & H). rewrite exec_at_field in H.
    apply field_at_Some in H as (ws & v' & [= <-] & -> & Hws & Hne & Hq).
    exists ws, rest. auto.
Qed.

(** What the fallback reports for a field, in the words of the
    specification. *)
Lemma recovered_first (name v text : jsstring) :
  first_occurrence name v text -> recovered name text = Some (JString v).
Proof.
  intros (pre & Hocc & Hmin). unfold recovered, String_match.
  apply occurs_at_exec in Hocc as (suf & rest & -> & Hex).
  destruct (exec_from _ 0 (pre ++ suf)) as [m|] eqn:E.
  - apply exec_from_Some in E as (pre' & suf' & Hs & Hex' & Hleft).
    assert (Hle : (length pre <= length pre')%nat).
    { destruct (group1 m) as [v'|] eqn:Hg.
      - apply (Hmin pre' v'). apply occurs_at_exec. eauto.
      - rewrite exec_at_field in Hex'.
        apply field_at_Some in Hex' as (? & ? & ? & _). discriminate. }
    assert (Hge : ~ (length pre < length pre')%nat).
    { intros Hlt. specialize (Hleft pre suf eq_refl Hlt). congruence. }
    destruct (app_same_length _ _ _ _ Hs) as [-> ->]; [lia|].
    rewrite Hex in Hex'. injection Hex' as _ Hg. simpl. now rewrite <- Hg.
  - rewrite exec_from_None in E. specialize (E pre suf eq_refl). congruence.
Qed.

Lemma recovered_none (name text : jsstring) :
  no_occurrence name text -> recovered name text = Some JNull.
Proof.
  intros Hno. unfold recovered, String_match.
  destruct (exec_from _ 0 text) as [m|] eqn:E; [|reflexivity].
  apply exec_from_Some in E as (pre' & suf' & Hs & Hex' & _).
  exfalso. rewrite exec_at_field in Hex'.
  pose proof Hex' as Hf.
  apply field_at_Some in Hf as (ws & v & Hg & _).
  apply (Hno pre' v). apply occurs_at_exec. exists suf', (rest m).
  split; [assumption|]. rewrite exec_at_field, Hex', Hg. reflexivity.
Qed.

(** The fallback reports a non-empty string found in the text, or null. *)
Lemma recovered_cases (name text : jsstring) :
  (exists v, first_occurrence name v text /\
             recovered name text = Some (JString v)) \/
  (no_occurrence name text /\ recovered name text = Some JNull).
Proof.
  unfold recovered, String_match.
  destruct (exec_from _ 0 text) as [m|] eqn:E.
  - left. pose proof E as E'.
    apply exec_from_Some in E as (pre & suf & Hs & Hex & Hleft).
    pose proof Hex as Hf. rewrite exec_at_field in Hf.
    apply field_at_Some in Hf as (ws & v & Hg & _).
    assert (Hfirst : first_occurrence name v text).
    { exists pre. split.
      - apply occurs_at_exec. exists suf, (rest m). rewrite <- Hg. auto.
      - intros pre' v' Hocc.
        apply occurs_at_exec in Hocc as (suf' & rest' & Hs' & Hex').
        destruct (Nat.le_gt_cases (length pre) (length pre')) as [|Hlt];
          [assumption|].
        rewrite (Hleft pre' suf' Hs' Hlt) in Hex'. discriminate. }
    exists v. split; [assumption|]. simpl. now rewrite Hg.
  - right. split; [|reflexivity].
    intros pre v Hocc.
    apply occurs_at_exec in Hocc as (suf & rest' & Hs & Hex).
    rewrite exec_from_None in E. rewrite (E pre suf Hs) in Hex. discriminate.
Qed.

Lemma first_occurrence_nonempty (name v text : jsstring) :
  first_occurrence name v text -> v <> [].
Proof. intros (pre & (ws & post & _ & _ & Hne & _) & _). exact Hne. Qed.

(** * [JSON.parse] never stops for lack of fuel *)

Section ParserFuel.

Lemma skip_ws_length (s : jsstring) : (length (skip_ws s) <= length s)%nat.
Proof.
  induction s as [|c s IH]; simpl; [lia|].
  destruct (is_json_ws c); simpl; lia.
Qed.

Lemma push_Some c r (v rest : jsstring) :
  push c r = Some (v, rest) -> exists v', r = Some (v', rest).
Proof.
  destruct r as [[v' rest']|]; simpl; [|discriminate].
  intros [= <- <-]. now exists v'.
Qed.

Lemma string_body_length (s v rest : jsstring) :
  string_body s = Some (v, rest) -> (length rest < length s)%nat.
Proof.
  revert v rest.
  induction s as [s IH] using (induction_ltof1 _ (@length N)).
  unfold ltof in IH. intros v rest.
  destruct s as [|c s]; simpl; [discriminate|].
  destruct (c =? quote); [intros [= <- <-]; simpl; lia|].
  destruct (c =? backslash).
  - destruct s as [|e s]; [discriminate|].
    destruct (e =? 117).
    + destruct s as [|h1 [|h2 [|h3 [|h4 s]]]]; try discriminate.
      destruct (hex4 h1 h2 h3 h4); [|discriminate].
      intros H. apply push_Some in H as [v' Hv].
      apply IH in Hv; simpl in *; lia.
    + destruct (unescape e); [|discriminate].
      intros H. apply push_Some in H as [v' Hv].
      apply IH in Hv; simpl in *; lia.
  - destruct (c <? 32); [discriminate|].
    intros H. apply push_Some in H as [v' Hv].
    apply IH in Hv; simpl in *; lia.
Qed.

Lemma digits_length (s : jsstring) :
  (length (snd (digits s)) <= length s)%nat.
Proof.
  induction s as [|c s IH]; simpl; [lia|].
  destruct (is_digit c); [|simpl; lia].
  destruct (digits s) as [d r]. simpl in *. lia.
Qed.

Lemma digits1_length (s d r : jsstring) :
  digits1 s = Some (d, r) -> (length r <= length s)%nat.
Proof.
  unfold digits1. pose proof (digits_length s) as H.
  destruct (digits s) as [[|x d'] r']; [discriminate|].
  intros [= <- <-]. exact H.
Qed.

Lemma number_length (s n rest : jsstring) :
  number s = Some (n, rest) -> (length rest < length s)%nat.
Proof.
  unfold number.
  destruct (number_int s) as [[i s1]|] eqn:Hi; [|discriminate].
  destruct (number_frac s1) as [[f s2]|] eqn:Hf; [|discriminate].
  destruct (number_exp s2) as [[e s3]|] eqn:He; [|discriminate].
  intros [= <- <-].
  assert (H1 : (length s1 < length s)%nat).
  { unfold number_int in Hi.
    assert (Hgo : forall sign t, (length t <= length s)%nat ->
              match t with
              | [] => None
              | c :: s2 =>
                  if c =? 48 then Some (sign ++ [c], s2)
                  else if is_digit c
                       then let '(d, r) := digits s2 in Some (sign ++ c :: d, r)
                       else None
              end = Some (i, s1) -> (length s1 < length s)%nat).
    { intros sign [|c t] Hle; [discriminate|].
      destruct (c =? 48); [intros [= <- <-]; simpl in Hle; lia|].
      destruct (is_digit c); [|discriminate].
      pose proof (digits_length t) as Hd.
      destruct (digits t) as [d r]. intros [= <- <-]. simpl in *. lia. }
    destruct s as [|c s']; [discriminate|].
    destruct (c =? 45);
      [apply (Hgo [c] s') | apply (Hgo [] (c :: s'))];
      simpl; try lia; exact Hi. }
  assert (H2 : (length s2 <= length s1)%nat).
  { unfold number_frac in Hf. destruct s1 as [|c s1']; [now injection Hf as <- <-|].
    destruct (c =? 46).
    - destruct (digits1 s1') as [[d r]|] eqn:Hd; [|discriminate].
      injection Hf as <- <-. apply digits1_length in Hd. simpl. lia.
    - now injection Hf as <- <-. }
  assert (H3 : (length s3 <= length s2)%nat).
  { unfold number_exp in He. destruct s2 as [|c s2']; [now injection He as <- <-|].
    destruct ((c =? 101) || (c =? 69)).
    - destruct s2' as [|d t].
      + simpl in He. discriminate.
      + destruct ((d =? 43) || (d =? 45)).
        * destruct (digits1 t) as [[x r]|] eqn:Hd; [|discriminate].
          injection He as <- <-. apply digits1_length in Hd. simpl. lia.
        * destruct (digits1 (d :: t)) as [[x r]|] eqn:Hd; [|discriminate].
          injection He as <- <-. apply digits1_length in Hd. simpl in *. lia.
    - now injection He as <- <-. }
  lia.
Qed.

(** One step of each of the three mutually recursive functions. *)
Lemma parse_elements_S fuel s acc :
  parse_elements (S fuel) s acc =
  match parse_value fuel s with
  | Parsed v r =>
      match skip_ws r with
      | d :: r' =>
          if d =? 44 then parse_elements fuel (skip_ws r') (v :: acc)
          else if d =? 93 then Parsed (rev (v :: acc)) r'
          else Invalid
      | [] => Invalid
      end
  | Invalid => Invalid
  | OutOfFuel => OutOfFuel
  end.
Proof. reflexivity. Qed.

Ltac len_facts :=
  repeat match goal with
  | H : string_body _ = Some _ |- _ => apply string_body_length in H
  | H : number _ = Some _ |- _ => apply number_length in H
  | H : context [skip_ws ?x] |- _ =>
      lazymatch goal with
      | _ : (length (skip_ws x) <= length x)%nat |- _ => fail
      | |- _ => pose proof (skip_ws_length x)
      end
  end.

Lemma parse_lengths (fuel : nat) :
  (forall s v r, parse_value fuel s = Parsed v r ->
                 (length r < length s)%nat) /\
  (forall s acc vs r, parse_elements fuel s acc = Parsed vs r ->
                      (length r < length s)%nat) /\
  (forall s acc ms r, parse_members fuel s acc = Parsed ms r ->
                      (length r < length s)%nat).
Proof.
  induction fuel as [|fuel (IHv & IHe & IHm)];
    [repeat split; intros; discriminate|].
  repeat split.
  - intros s v r H. simpl in H.
    repeat case_match; simplify_eq; len_facts;
      repeat match goal with
      | H : parse_members _ _ _ = Parsed _ _ |- _ => apply IHm in H
      | H : parse_elements _ _ _ = Parsed _ _ |- _ => apply IHe in H
      | H : skip_ws _ = _ :: _ |- _ =>
          apply (f_equal (@length N)) in H; simpl in H
      end;
      rewrite ?length_drop; simpl in *; try lia.
  - intros s acc vs r H. rewrite parse_elements_S in H.
    destruct (parse_value fuel s) as [v r1| |] eqn:Hv; try discriminate.
    apply IHv in Hv. pose proof (skip_ws_length r1) as Hr1.
    destruct (skip_ws r1) as [|d r'] eqn:Hs; [discriminate|].
    simpl in Hr1.
    destruct (d =? 44).
    + apply IHe in H. pose proof (skip_ws_length r'). lia.
    + destruct (d =? 93); [|discriminate]. injection H as _ <-. lia.
  - intros s acc ms r H. simpl in H.
    repeat case_match; simplify_eq; len_facts;
      repeat match goal with
      | H : parse_members _ _ _ = Parsed _ _ |- _ => apply IHm in H
      | H : parse_value _ _ = Parsed _ _ |- _ => apply IHv in H
      | H : skip_ws _ = _ :: _ |- _ =>
          apply (f_equal (@length N)) in H; simpl in H
      end;
      simpl in *; try lia.
Qed.

Ltac skip_facts :=
  repeat match goal with
  | H : context [skip_ws ?x] |- _ =>
      lazymatch goal with
      | _ : (length (skip_ws x) <= length x)%nat |- _ => fail
      | |- _ => pose proof (skip_ws_length x)
      end
  | |- context [skip_ws ?x] =>
      lazymatch goal with
      | _ : (length (skip_ws x) <= length x)%nat |- _ => fail
      | |- _ => pose proof (skip_ws_length x)
      end
  end.

Ltac sizes :=
  repeat match goal with
  | H : string_body _ = Some _ |- _ => apply string_body_length in H
  | H : parse_value _ _ = Parsed _ _ |- _ =>
      apply (proj1 (parse_lengths _)) in H
  | H : skip_ws _ = _ :: _ |- _ =>
      apply (f_equal (@length N)) in H; simpl in H
  end.

Lemma parse_fuel (fuel : nat) :
  (forall s, (2 * length s < fuel)%nat -> parse_value fuel s <> OutOfFuel) /\
  (forall s acc, (2 * length s + 1 < fuel)%nat ->
                 parse_elements fuel s acc <> OutOfFuel) /\
  (forall s acc, (2 * length s + 1 < fuel)%nat ->
                 parse_members fuel s acc <> OutOfFuel).
Proof.
  induction fuel as [|fuel (IHv & IHe & IHm)];
    [repeat split; intros; lia|].
  repeat split.
  - intros s Hf H. simpl in H.
    repeat case_match; simplify_eq; skip_facts; sizes;
      match goal with
      | H : parse_members _ _ _ = OutOfFuel |- _ =>
          revert H; apply IHm; simpl in *; lia
      | H : parse_elements _ _ _ = OutOfFuel |- _ =>
          revert H; apply IHe; simpl in *; lia
      end.
  - intros s acc Hf H. rewrite parse_elements_S in H.
    destruct (parse_value fuel s) as [v r1| |] eqn:Hv; try discriminate.
    + apply (proj1 (parse_lengths _)) in Hv.
      pose proof (skip_ws_length r1) as Hr1.
      destruct (skip_ws r1) as [|d r'] eqn:Hs; [discriminate|].
      simpl in Hr1.
      destruct (d =? 44).
      * revert H. apply IHe. pose proof (skip_ws_length r'). lia.
      * destruct (d =? 93); discriminate.
    + revert Hv. apply IHv. lia.
  - intros s acc Hf H. simpl in H.
    repeat case_match; simplify_eq; skip_facts; sizes;
      match goal with
      | H : parse_members _ _ _ = OutOfFuel |- _ =>
          revert H; apply IHm; simpl in *; lia
      | H : parse_value _ _ = OutOfFuel |- _ =>
          revert H; apply IHv; simpl in *; lia
      end.
Qed.

(** [parse] fails on a text only when the text is not JSON. *)
Lemma parse_has_fuel (s : jsstring) :
  parse_value (fuel_for s) (skip_ws s) <> OutOfFuel.
Proof.
  apply (proj1 (parse_fuel _)). unfold fuel_for.
  pose proof (skip_ws_length s). lia.
Qed.

End ParserFuel.

(** * The extraction function, case by case *)

Section Extraction.
Variable e : env.

Lemma strict_parse_run (result : jsstring) (w : world) :
  Server.strict_parse (Some result) w =
  match JSON.parse (cleaned result) with
  | Some v => (inr v, w)
  | None => (inl SyntaxError, w)
  end.
Proof.
  unfold Server.strict_parse, receiver, bind, ret, JSON_parse.
  fold (cleaned result).
  destruct (JSON.parse (cleaned result)); reflexivity.
Qed.

Lemma manual_extraction_run (result : jsstring) (w : world) :
  Server.manual_extraction (Some result) w = (inr (fallback_object result), w).
Proof. reflexivity. Qed.

(** Everything [processImageForBOLData] can do. *)
Lemma processImageForBOLData_run (imagePath ocrText : jsstring) (w : world) :
  Server.processImageForBOLData e imagePath ocrText w =
  match fs w !! imagePath with
  | None => (inl (ENOENT (u "open") imagePath), w)
  | Some bytes =>
      let w1 := World (fs w)
                  (trace w ++ [ChatCompletion (Server.prompt ocrText)
                                 (image_url e bytes)]) in
      match completion e (Server.prompt ocrText) (image_url e bytes) with
      | inl err => (inl err, w1)
      | inr None =>
          (inl (TypeError (u "Cannot read properties of null (reading '" ++
                           u "match" ++ u "')")), w1)
      | inr (Some result) =>
          match JSON.parse (cleaned result) with
          | Some v => (inr v, w1)
          | None => (inr (fallback_object result), w1)
          end
      end
  end.
Proof.
  unfold Server.processImageForBOLData, bind at 1, readFileSync.
  destruct (fs w !! imagePath) as [bytes|]; [|reflexivity].
  fold (image_url e bytes).
  unfold chat_completions_create, bind, emit, of_sum, try_catch.
  destruct (completion e _ _) as [err|[result|]]; try reflexivity.
  unfold ret. rewrite strict_parse_run.
  destruct (JSON.parse (cleaned result)); reflexivity.
Qed.

End Extraction.

(** * The handler, case by case *)

Section Handler.
Variable e : env.

Lemma catch_block_run (imagePath : jsstring) (error : exn) (w : world) :
  (stillThere <- existsSync imagePath ;;
   (if stillThere then unlinkSync imagePath else ret tt) ;;;
   res_json 500
     (object_literal
        [ (u "error", Some (JString (u "Failed to process image")));
          (u "details", Some (JString (message error))) ])) w
  = failure imagePath error w.
Proof.
  unfold failure, bind, existsSync, unlinkSync, ret, res_json, emit.
  destruct w as [files tr]. simpl.
  destruct (files !! imagePath) as [bytes|] eqn:Hf.
  - rewrite bool_decide_eq_true_2 by eauto. simpl. rewrite Hf. simpl.
    rewrite <- ?app_assoc. reflexivity.
  - rewrite bool_decide_eq_false_2 by (intros [? ?]; discriminate). simpl.
    now rewrite delete_id.
Qed.

(** Everything the handler can do with a file. *)
Lemma process_image_run (file : multer_file) (w : world) :
  Server.process_image e (Some file) w =
  let p := path file in
  let w0 := World (fs w) (trace w ++ [Recognize p]) in
  match recognize e p (fs w) with
  | inl err => failure p err w0
  | inr text =>
      match Server.processImageForBOLData e p text w0 with
      | (inl err, w1) => failure p err w1
      | (inr data, w1) =>
          match fs w1 !! p with
          | None => failure p (ENOENT (u "unlink") p) w1
          | Some _ =>
              let w2 := World (delete p (fs w1)) (trace w1 ++ [Unlink p]) in
              match data with
              | JNull =>
                  failure p
                    (TypeError (u "Cannot read properties of null (reading '" ++
                                u "bolNumber" ++ u "')")) w2
              | _ =>
                  (inr tt,
                   World (fs w2)
                     (trace w2 ++ [Respond 200 (success_body data text)]))
              end
          end
      end
  end.
Proof.
  unfold Server.process_image. cbv zeta.
  set (p := path file).
  unfold try_catch.
  unfold bind at 1. unfold Tesseract_recognize at 1.
  unfold bind at 1. unfold emit at 1. cbn [fs trace].
  unfold of_sum at 1.
  destruct (recognize e p (fs w)) as [err|text].
  { unfold throw. apply catch_block_run. }
  unfold ret at 1. unfold bind at 1.
  destruct (Server.processImageForBOLData e p text _) as [[err|data] w1].
  { apply catch_block_run. }
  unfold bind at 1. unfold unlinkSync at 1.
  destruct (fs w1 !! p) as [bytes|] eqn:Hf.
  2:{ apply catch_block_run. }
  destruct data; try reflexivity.
  unfold get_field, bind, throw. apply catch_block_run.
Qed.

End Handler.

(** * The two variants of the service *)

Lemma try_catch_rethrow {A} (m : M A) (w : world) :
  try_catch m (fun error => throw error) w = m w.
Proof.
  unfold try_catch, throw. destruct (m w) as [[err|a] w']; reflexivity.
Qed.

Lemma try_catch_ext {A} (m1 m2 : M A) (h : exn -> M A) (w : world) :
  (forall w, m1 w = m2 w) -> try_catch m1 h w = try_catch m2 h w.
Proof. intros H. unfold try_catch. now rewrite H. Qed.

Lemma bind_ext_l {A B} (m1 m2 : M A) (k : A -> M B) (w : world) :
  m1 w = m2 w -> bind m1 k w = bind m2 k w.
Proof. intros H. unfold bind. now rewrite H. Qed.

Lemma bind_ext_r {A B} (m : M A) (k1 k2 : A -> M B) (w : world) :
  (forall a w, k1 a w = k2 a w) -> bind m k1 w = bind m k2 w.
Proof.
  intros H. unfold bind. destruct (m w) as [[err|a] w']; [reflexivity|apply H].
Qed.

Lemma processImageForBOLData_same (e : env) (imagePath ocrText : jsstring)
      (w : world) :
  ServerAlt.processImageForBOLData e imagePath ocrText w =
  Server.processImageForBOLData e imagePath ocrText w.
Proof.
  unfold ServerAlt.processImageForBOLData. rewrite try_catch_rethrow.
  reflexivity.
Qed.

(** C10. The two variants of the service behave alike: on every image
    path, OCR text, model and file system, [processImageForBOLData] of
    [src/unnamed/part_001] returns what the one of [src/server/server.js]
    returns, and the two handlers of [/api/process-image] leave the same
    world, with the same response in its trace. *)
Theorem server_variants_agree :
  (forall (e : env) (imagePath ocrText : jsstring) (w : world),
      ServerAlt.processImageForBOLData e imagePath ocrText w =
      Server.processImageForBOLData e imagePath ocrText w) /\
  (forall (e : env) (req_file : option multer_file) (w : world),
      ServerAlt.process_image e req_file w =
      Server.process_image e req_file w).
Proof.
  split; [exact processImageForBOLData_same|].
  intros e [file|] w; [|reflexivity].
  unfold ServerAlt.process_image, Server.process_image.
  apply try_catch_ext. intros w0.
  apply bind_ext_r. intros text w1.
  apply bind_ext_l, processImageForBOLData_same.
Qed.

(** * The handler without a file *)

(** C5. A request without a file gets the status 400 with the error
    [No image file provided], and nothing else happens: the trace holds
    the response alone, so neither the OCR engine nor the model was
    called, and the files are untouched. *)
Theorem no_file_is_rejected (e : env) (files : gmap jsstring (list N)) :
  let '(r, w') := run (Server.process_image e None) files in
  r = inr tt /\
  fs w' = files /\
  trace w' =
    [Respond 400
       (JObject [(u "error", JString (u "No image file provided"))])] /\
  Forall (fun ev => is_external_call ev = false) (trace w').
Proof.
  simpl. repeat split. repeat constructor.
Qed.

(** * The instruction sent to the model *)

(** C6. Whatever the OCR text, the instruction holds it verbatim after
    the line [OCR Text:], then the weight-priority rule (Net Weight or
    Net first, Shipping Weight second, any other weight including Gross
    Weight last), then the JSON shape with the three fields, then the
    instruction to return null for a field that is not found; everything
    around the OCR text is fixed. *)
Theorem prompt_embeds_text_and_rules :
  exists a b c d f : jsstring,
    includes (u "OCR Text:") a = true /\
    forall ocrText : jsstring,
      Server.prompt ocrText =
      a ++ ocrText ++ b ++ priority_rule ++ c ++ json_shape ++ d ++
      null_instruction ++ f.
Proof.
  exists Server.prompt_head.
  exists (take 88 Server.prompt_tail).
  exists (take 177 (drop 305 Server.prompt_tail)).
  exists (take 10 (drop 722 Server.prompt_tail)).
  exists (drop 792 Server.prompt_tail).
  split; [vm_compute; reflexivity|].
  intros ocrText. unfold Server.prompt.
  apply (f_equal (fun t => Server.prompt_head ++ ocrText ++ t)).
  vm_compute. reflexivity.
Qed.

(** * The handler with a file *)

Section HandlerFacts.
Variable e : env.

(** [processImageForBOLData] touches no file and sends no response. *)
Lemma processImageForBOLData_world (imagePath ocrText : jsstring)
      (w : world) :
  let '(r, w') := Server.processImageForBOLData e imagePath ocrText w in
  fs w' = fs w /\
  (exists evs, trace w' = trace w ++ evs /\
               Forall (fun ev => is_respond ev = false) evs /\
               Unlink imagePath ∉ evs) /\
  (forall v, r = inr v -> is_Some (fs w !! imagePath)).
Proof.
  rewrite processImageForBOLData_run.
  destruct (fs w !! imagePath) as [bytes|] eqn:Hf; cbv zeta.
  - assert (Hev : exists evs,
               trace w ++ [ChatCompletion (Server.prompt ocrText)
                             (image_url e bytes)] = trace w ++ evs /\
               Forall (fun ev => is_respond ev = false) evs /\
               Unlink imagePath ∉ evs).
    { eexists. split; [reflexivity|]. split; [repeat constructor|].
      intros H. apply list_elem_of_singleton in H. discriminate. }
    destruct (completion e _ _) as [err|[result|]];
      [| destruct (JSON.parse (cleaned result)) |]; simpl; eauto.
  - simpl. split; [reflexivity|]. split; [|discriminate].
    exists []. rewrite app_nil_r. split; [reflexivity|].
    split; [constructor | apply not_elem_of_nil].
Qed.

End HandlerFacts.

Section Cleanup.
Variable e : env.

Lemma failure_settled (p : jsstring) (err : exn) (w : world)
      (files : gmap jsstring (list N)) :
  Forall (fun ev => is_respond ev = false) (trace w) ->
  (is_Some (files !! p) -> Unlink p ∈ trace w \/ is_Some (fs w !! p)) ->
  settled p files (failure p err w).
Proof.
  intros Hresp Hdel. unfold settled, failure. cbn [fst snd fs trace].
  split; [reflexivity|]. split; [apply lookup_delete_eq|].
  eexists _, 500, (failure_body err).
  split; [rewrite app_assoc; reflexivity|]. split.
  - apply Forall_app. split; [assumption|].
    case_bool_decide; repeat constructor.
  - intros Hfile. apply elem_of_app.
    destruct (Hdel Hfile) as [Hin|Hstill]; [now left|right].
    rewrite bool_decide_eq_true_2 by assumption. apply list_elem_of_here.
Qed.

Lemma process_image_settled (file : multer_file)
      (files : gmap jsstring (list N)) :
  settled (path file) files
    (run (Server.process_image e (Some file)) files).
Proof.
  unfold run. rewrite process_image_run. cbv zeta. cbn [fs trace app].
  set (p := path file).
  destruct (recognize e p files) as [err|text].
  { apply failure_settled; cbn [fs trace]; [repeat constructor | auto]. }
  pose proof (processImageForBOLData_world e p text
                (World files [Recognize p])) as Hw.
  destruct (Server.processImageForBOLData e p text _) as [[err|data] w1].
  - destruct Hw as (Hfs & (evs & Htr & Hresp & _) & _).
    cbn [fs trace] in Hfs, Htr.
    apply failure_settled.
    + rewrite Htr. apply Forall_app. split; [repeat constructor | assumption].
    + rewrite Hfs. auto.
  - destruct Hw as (Hfs & (evs & Htr & Hresp & _) & Hex).
    cbn [fs trace] in Hfs, Htr, Hex.
    assert (Hnr : Forall (fun ev => is_respond ev = false)
                    (trace w1 ++ [Unlink p])).
    { rewrite Htr. repeat (apply Forall_app; split);
        solve [assumption | repeat constructor]. }
    destruct (fs w1 !! p) as [bytes|] eqn:Hf.
    2:{ rewrite Hfs in Hf. destruct (Hex data eq_refl) as [b Hb].
        congruence. }
    assert (Hok : forall st body,
               settled p files
                 (inr tt, World (delete p (fs w1))
                            ((trace w1 ++ [Unlink p]) ++ [Respond st body]))).
    { intros st body. unfold settled. cbn [fst snd fs trace].
      split; [reflexivity|]. split; [apply lookup_delete_eq|].
      eexists _, st, body. split; [reflexivity|]. split; [assumption|].
      intros _. apply elem_of_app. right. apply list_elem_of_here. }
    destruct data; try apply Hok.
    apply failure_settled; cbn [fs trace]; [assumption|].
    intros _. left. apply elem_of_app. right. apply list_elem_of_here.
Qed.

End Cleanup.

(** C4. Whatever the OCR engine and the model do (a result, a rejected
    call, a completion the handler cannot use), the handler returns, the
    uploaded file is not on disk afterwards, the response is the last
    event of the run and the only response, and a file that was on disk
    when the handler started was deleted before that response. *)
Theorem upload_is_deleted_before_response
        (e : env) (file : multer_file) (files : gmap jsstring (list N)) :
  let rw := run (Server.process_image e (Some file)) files in
  rw.1 = inr tt /\
  fs rw.2 !! path file = None /\
  exists evs status body,
    trace rw.2 = evs ++ [Respond status body] /\
    Forall (fun ev => is_respond ev = false) evs /\
    (is_Some (files !! path file) -> Unlink (path file) ∈ evs).
Proof. apply process_image_settled. Qed.

(** * The success response *)

Section Success.
Variable e : env.

Lemma success_body_rawOcrText (data : json) (text : jsstring) :
  data_field (success_body data text) (u "rawOcrText")
  = Some (JString (take 500 text)).
Proof.
  unfold success_body, substring0.
  generalize (take 500 text) as t. intros t.
  destruct (field_of data (u "bolNumber")),
           (field_of data (u "weight")),
           (field_of data (u "weightType")); reflexivity.
Qed.

Lemma not_respond_200 (evs : list event) (status : N) (b body : json) :
  Forall (fun ev => is_respond ev = false) evs ->
  Respond 200 body ∈ evs ++ [Respond status b] ->
  status = 200 /\ b = body.
Proof.
  intros Hno Hin. apply elem_of_app in Hin as [Hin|Hin].
  - rewrite Forall_forall in Hno. apply Hno in Hin. discriminate.
  - apply list_elem_of_singleton in Hin. injection Hin as <- <-. auto.
Qed.

Lemma failure_not_200 (p : jsstring) (err : exn) (w : world) (body : json) :
  Forall (fun ev => is_respond ev = false) (trace w) ->
  Respond 200 body ∉ trace (failure p err w).2.
Proof.
  intros Hno Hin. unfold failure in Hin. cbn [snd trace] in Hin.
  rewrite app_assoc in Hin. apply not_respond_200 in Hin as [H _].
  - discriminate.
  - apply Forall_app. split; [assumption|].
    case_bool_decide; repeat constructor.
Qed.

(** A run that answers 200 is a run in which the OCR engine returned a
    text, the extraction returned a value other than null, and the body
    is the success body built from the two. *)
Lemma process_image_200 (file : multer_file)
      (files : gmap jsstring (list N)) (body : json) :
  Respond 200 body ∈ trace (run (Server.process_image e (Some file)) files).2 ->
  exists text data w1,
    recognize e (path file) files = inr text /\
    Server.processImageForBOLData e (path file) text
      (World files [Recognize (path file)]) = (inr data, w1) /\
    body = success_body data text.
Proof.
  unfold run. rewrite process_image_run. cbv zeta. cbn [fs trace app].
  set (p := path file).
  destruct (recognize e p files) as [err|text].
  { intros H. apply failure_not_200 in H; [contradiction|].
    repeat constructor. }
  pose proof (processImageForBOLData_world e p text
                (World files [Recognize p])) as Hw.
  destruct (Server.processImageForBOLData e p text _)
    as [[err|data] w1] eqn:Hrun;
    destruct Hw as (Hfs & (evs & Htr & Hresp & _) & Hex);
    cbn [fs trace] in Hfs, Htr, Hex.
  { intros H. apply failure_not_200 in H; [contradiction|].
    rewrite Htr. apply Forall_app. split; [repeat constructor | assumption]. }
  assert (Hnr : Forall (fun ev => is_respond ev = false) (trace w1)).
  { rewrite Htr. apply Forall_app. split; [repeat constructor | assumption]. }
  assert (Hnr' : Forall (fun ev => is_respond ev = false)
                   (trace w1 ++ [Unlink p])).
  { apply Forall_app. split; [assumption | repeat constructor]. }
  destruct (fs w1 !! p) as [bytes|] eqn:Hf.
  2:{ intros H. apply failure_not_200 in H; [contradiction | assumption]. }
  assert (Hok : Respond 200 body ∈
                  (trace w1 ++ [Unlink p]) ++
                  [Respond 200 (success_body data text)] ->
                exists text0 data0 w2,
                  (inr text : exn + jsstring) = inr text0 /\
                  Server.processImageForBOLData e p text0
                    (World files [Recognize p]) = (inr data0, w2) /\
                  body = success_body data0 text0).
  { intros H. apply not_respond_200 in H as [_ <-]; [|assumption].
    exists text, data, w1. auto. }
  destruct data; cbn [fs trace snd]; try exact Hok.
  intros H. apply failure_not_200 in H; [contradiction | assumption].
Qed.

End Success.

(** C1. In every run of the handler that answers with the success
    response, whichever way the fields were extracted, [rawOcrText] is
    the first 500 characters of the text the OCR engine returned for the
    uploaded file, and is at most 500 characters long. *)
Theorem rawOcrText_is_truncated_ocr_output
        (e : env) (file : multer_file) (files : gmap jsstring (list N))
        (body : json) :
  Respond 200 body ∈ trace (run (Server.process_image e (Some file)) files).2 ->
  exists text,
    recognize e (path file) files = inr text /\
    data_field body (u "rawOcrText") = Some (JString (take 500 text)) /\
    (length (take 500 text) <= 500)%nat.
Proof.
  intros H. apply process_image_200 in H as (text & data & w1 & Hocr & _ & ->).
  exists text. split; [assumption|]. split.
  - apply success_body_rawOcrText.
  - rewrite length_take. lia.
Qed.

(** * The two ways of reading the completion *)

Section Fallback.
Variable e : env.

Lemma recovered_is_Some (name text : jsstring) :
  exists x, recovered name text = Some x.
Proof.
  destruct (recovered_cases name text) as [(v & _ & ->)|[_ ->]]; eauto.
Qed.

(** The fallback object holds, under each name, what the pattern of
    that name found, and nothing else decides it. *)
Lemma fallback_field (name result : jsstring) :
  name ∈ field_names ->
  field_of (fallback_object result) name = recovered name result.
Proof.
  intros Hin. unfold fallback_object.
  destruct (recovered_is_Some (u "bolNumber") result) as [x1 H1].
  destruct (recovered_is_Some (u "weight") result) as [x2 H2].
  destruct (recovered_is_Some (u "weightType") result) as [x3 H3].
  unfold field_names in Hin.
  repeat (apply elem_of_cons in Hin as [->|Hin]);
    [| | | apply elem_of_nil in Hin; contradiction];
    rewrite H1, H2, H3; reflexivity.
Qed.

(** A completion that is not JSON never makes the function throw. *)
Lemma fallback_run (imagePath ocrText : jsstring) (w : world)
      (bytes : list N) (result : jsstring) :
  fs w !! imagePath = Some bytes ->
  completion e (Server.prompt ocrText) (image_url e bytes)
    = inr (Some result) ->
  JSON.parse (cleaned result) = None ->
  Server.processImageForBOLData e imagePath ocrText w =
  (inr (fallback_object result),
   World (fs w)
     (trace w ++ [ChatCompletion (Server.prompt ocrText)
                    (image_url e bytes)])).
Proof.
  intros Hf Hc Hp. rewrite processImageForBOLData_run, Hf. cbv zeta.
  now rewrite Hc, Hp.
Qed.

Lemma strict_run (imagePath ocrText : jsstring) (w : world)
      (bytes : list N) (result : jsstring) (v : json) :
  fs w !! imagePath = Some bytes ->
  completion e (Server.prompt ocrText) (image_url e bytes)
    = inr (Some result) ->
  JSON.parse (cleaned result) = Some v ->
  Server.processImageForBOLData e imagePath ocrText w =
  (inr v,
   World (fs w)
     (trace w ++ [ChatCompletion (Server.prompt ocrText)
                    (image_url e bytes)])).
Proof.
  intros Hf Hc Hp. rewrite processImageForBOLData_run, Hf. cbv zeta.
  now rewrite Hc, Hp.
Qed.

(** White space in front of a quote is determined by the text. *)
Lemma whitespace_run_unique (a a' t t' : jsstring) :
  Forall (fun c => is_whitespace c = true) a ->
  Forall (fun c => is_whitespace c = true) a' ->
  a ++ quote :: t = a' ++ quote :: t' -> a = a' /\ t = t'.
Proof.
  intros Ha Ha' H.
  assert (Ht : quote :: t = quote :: t').
  { rewrite <- (drop_while_app is_whitespace a quote t),
            <- (drop_while_app is_whitespace a' quote t'), H
      by (assumption || reflexivity). reflexivity. }
  injection Ht as ->. apply app_inv_tail in H. auto.
Qed.

(** A key followed by an empty quoted value is no occurrence of the
    field, and when the key stands nowhere else the field has no
    occurrence at all. *)
Lemma empty_value_no_occurrence (name pre ws post : jsstring) :
  Forall (fun c => is_whitespace c = true) ws ->
  (forall a b, pre ++ field_key name ++ ws ++ quote :: quote :: post
               = a ++ field_key name ++ b -> a = pre) ->
  no_occurrence name (pre ++ field_key name ++ ws ++ quote :: quote :: post).
Proof.
  intros Hws Huniq pre' v (ws' & post' & Heq & Hws' & Hne & Hq).
  pose proof (Huniq _ _ Heq) as ->.
  apply app_inv_head in Heq. apply app_inv_head in Heq.
  apply whitespace_run_unique in Heq as [_ Heq]; [|assumption..].
  destruct v as [|c v]; [contradiction|].
  injection Heq as <- _. apply Hq. apply list_elem_of_here.
Qed.

End Fallback.

Lemma rawOcrText_witness :
  exists text,
    recognize (Sample.env_with Sample.fenced_json) (path Sample.file)
      Sample.files = inr text /\
    data_field Sample.response (u "rawOcrText")
      = Some (JString (take 500 text)) /\
    (length (take 500 text) <= 500)%nat.
Proof.
  apply (rawOcrText_is_truncated_ocr_output
           (Sample.env_with Sample.fenced_json) Sample.file Sample.files
           Sample.response).
  vm_compute.
  do 3 apply list_elem_of_further. apply list_elem_of_here.
Defined.

(** C3. When the completion is not JSON once its code fences are
    stripped, [processImageForBOLData] still returns, and each of
    [bolNumber], [weight] and [weightType] is decided by the text and
    that field's own pattern alone: the value of the leftmost place
    where the quoted name, a colon, white space and a quoted non-empty
    value stand, or null when there is no such place; one of the two
    always applies. *)
Theorem non_json_fields_recovered_independently
        (e : env) (imagePath ocrText : jsstring) (w : world)
        (bytes : list N) (result : jsstring) :
  fs w !! imagePath = Some bytes ->
  completion e (Server.prompt ocrText) (image_url e bytes)
    = inr (Some result) ->
  JSON.parse (cleaned result) = None ->
  exists r w',
    Server.processImageForBOLData e imagePath ocrText w = (inr r, w') /\
    forall name, name ∈ field_names ->
      (forall v, first_occurrence name v result ->
                 field_of r name = Some (JString v)) /\
      (no_occurrence name result -> field_of r name = Some JNull) /\
      ((exists v, first_occurrence name v result) \/ no_occurrence name result).
Proof.
  intros Hf Hc Hp. eexists _, _. split.
  - apply (fallback_run e imagePath ocrText w bytes result Hf Hc Hp).
  - intros name Hin. rewrite (fallback_field name result Hin).
    split; [intros v; apply recovered_first|].
    split; [apply recovered_none|].
    destruct (recovered_cases name result) as [(v & Hv & _)|[Hno _]]; eauto.
Qed.

Lemma non_json_witness :
  exists r w',
    Server.processImageForBOLData (Sample.env_with Sample.chatty)
      (path Sample.file) Sample.text Sample.world0 = (inr r, w') /\
    forall name, name ∈ field_names ->
      (forall v, first_occurrence name v Sample.chatty ->
                 field_of r name = Some (JString v)) /\
      (no_occurrence name Sample.chatty -> field_of r name = Some JNull) /\
      ((exists v, first_occurrence name v Sample.chatty) \/
       no_occurrence name Sample.chatty).
Proof.
  apply (non_json_fields_recovered_independently
           (Sample.env_with Sample.chatty) (path Sample.file)
           Sample.text Sample.world0 [137; 80; 78; 71] Sample.chatty);
    vm_compute; reflexivity.
Defined.

(** What the function returns on the sample that is not JSON. *)
Example non_json_sample :
  (Server.processImageForBOLData (Sample.env_with Sample.chatty)
     (path Sample.file) Sample.text Sample.world0).1
  = inr (JObject [ (u "bolNumber", JString (u "4471"));
                   (u "weight", JNull);
                   (u "weightType", JNull) ]).
Proof. vm_compute. reflexivity. Qed.

(** The whole request on that sample: the answer is the success response
    with the recovered fields, after the file was deleted. *)
Example non_json_sample_response :
  run (Server.process_image (Sample.env_with Sample.chatty)
         (Some Sample.file)) Sample.files
  = (inr tt,
     World ∅
       [ Recognize (path Sample.file);
         ChatCompletion (Server.prompt Sample.text)
           (u "data:image/jpeg;base64,iVBORw==");
         Unlink (path Sample.file);
         Respond 200
           (JObject
              [ (u "success", JBool true);
                (u "data",
                 JObject [ (u "bolNumber", JString (u "4471"));
                           (u "weight", JNull);
                           (u "weightType", JNull);
                           (u "rawOcrText", JString (take 500 Sample.text)) ]) ]) ]).
Proof. vm_compute. reflexivity. Qed.

(** C9. In the fallback the patterns run on the completion as the model
    sent it, not on the text with the code fences stripped: each field of
    the result is what its pattern finds in [result].  No field is ever
    the empty string, and a field whose key is followed by an empty
    quoted value, and stands nowhere else in the text, is null. *)
Theorem fallback_reads_raw_text_and_rejects_empty
        (e : env) (imagePath ocrText : jsstring) (w : world)
        (bytes : list N) (result : jsstring) :
  fs w !! imagePath = Some bytes ->
  completion e (Server.prompt ocrText) (image_url e bytes)
    = inr (Some result) ->
  JSON.parse (cleaned result) = None ->
  exists r w',
    Server.processImageForBOLData e imagePath ocrText w = (inr r, w') /\
    forall name, name ∈ field_names ->
      field_of r name = recovered name result /\
      field_of r name <> Some (JString []) /\
      (forall pre ws post,
          result = pre ++ field_key name ++ ws ++ quote :: quote :: post ->
          Forall (fun c => is_whitespace c = true) ws ->
          (forall a b, result = a ++ field_key name ++ b -> a = pre) ->
          field_of r name = Some JNull).
Proof.
  intros Hf Hc Hp. eexists _, _. split.
  - apply (fallback_run e imagePath ocrText w bytes result Hf Hc Hp).
  - intros name Hin. rewrite (fallback_field name result Hin).
    split; [reflexivity|]. split.
    + destruct (recovered_cases name result) as [(v & Hv & ->)|[_ ->]];
        [|discriminate].
      intros [= ->]. now apply first_occurrence_nonempty in Hv.
    + intros pre ws post -> Hws Huniq. apply recovered_none.
      now apply empty_value_no_occurrence.
Qed.

Lemma fallback_raw_text_witness :
  exists r w',
    Server.processImageForBOLData (Sample.env_with Sample.chatty)
      (path Sample.file) Sample.text Sample.world0 = (inr r, w') /\
    forall name, name ∈ field_names ->
      field_of r name = recovered name Sample.chatty /\
      field_of r name <> Some (JString []) /\
      (forall pre ws post,
          Sample.chatty =
            pre ++ field_key name ++ ws ++ quote :: quote :: post ->
          Forall (fun c => is_whitespace c = true) ws ->
          (forall a b, Sample.chatty = a ++ field_key name ++ b -> a = pre) ->
          field_of r name = Some JNull).
Proof.
  apply (fallback_reads_raw_text_and_rejects_empty
           (Sample.env_with Sample.chatty) (path Sample.file)
           Sample.text Sample.world0 [137; 80; 78; 71] Sample.chatty);
    vm_compute; reflexivity.
Defined.

(** The raw text and the stripped text can give different values: the
    fence inside the quoted value is part of what the fallback reports. *)
Example raw_text_is_not_the_stripped_text :
  JSON.parse (cleaned Sample.fence_in_value) = None /\
  recovered (u "weight") Sample.fence_in_value
    = Some (JString (u "```500 lbs")) /\
  recovered (u "weight") (cleaned Sample.fence_in_value)
    = Some (JString (u "500 lbs")).
Proof. vm_compute. repeat split. Qed.

(** The empty weight of the sample is reported as null. *)
Example empty_value_sample :
  recovered (u "weight") Sample.chatty = Some JNull.
Proof. vm_compute. reflexivity. Qed.

(** * The client *)

Section ClientFacts.
Import Client.

(** What [processImage] does before it waits for the service. *)
Lemma processImage_start_spec (backend : jsstring) (file : File)
      (st : state) :
  processImage_start backend file st =
  (State [] [] (weightType st) true (dragOver st)
     (u "Processing image...") (uploadedImage st),
   [ ReadAsDataURL file;
     Fetch (backend ++ u "/api/process-image") (u "POST")
       [(u "image", file)] ]).
Proof. reflexivity. Qed.

(** [clearData] does reset the three fields. *)
Lemma clearData_spec (st : state) :
  clearData st =
  State [] [] [] (isProcessing st) (dragOver st) [] None.
Proof. reflexivity. Qed.

End ClientFacts.

(** C7, at a failing input.  After one upload has shown the weight type
    [Net Weight], accepting the next file clears [bolNumber] and
    [weight], marks the component as processing and issues the preview
    read and one request with the file as form data, but [weightType]
    still reads [Net Weight]; it stays so when the service then reports
    an error.  [clearData] on the same state does empty it. *)
Theorem weightType_survives_next_upload :
  let shown :=
    Client.State (u "4471") (u "500 lbs") (u "Net Weight") false false
      (u "Image processed successfully!") (Some (u "data:image/png;base64,AA==")) in
  let next := Client.MkFile (u "next.png") (u "image/png") [137; 80] in
  let backend := Client.BACKEND_URL None in
  let '(st, effects) := Client.processImage_start backend next shown in
  Client.bolNumber st = [] /\
  Client.weight st = [] /\
  Client.isProcessing st = true /\
  effects =
    [ Client.ReadAsDataURL next;
      Client.Fetch (u "http://localhost:5001/api/process-image") (u "POST")
        [(u "image", next)] ] /\
  Client.weightType st = u "Net Weight" /\
  Client.weightType
    (Client.processImage_finish
       (Client.Body
          (Client.ApiResponse.Make false None
             (Some (u "Failed to process image")))) st)
    = u "Net Weight" /\
  Client.weightType (Client.clearData shown) = [].
Proof. vm_compute. repeat split. Qed.

(** C8. When the service reports success and returns neither a BOL
    number nor a weight, the message left on display is the one that
    says nothing was found, not the plain success message, and the
    component is no longer processing. *)
Theorem nothing_found_message
        (result : Client.ApiResponse.t) (data : Client.ProcessedData.t)
        (st : Client.state) :
  Client.ApiResponse.success result = true ->
  Client.ApiResponse.data result = Some data ->
  Client.ProcessedData.bolNumber data = None ->
  Client.ProcessedData.weight data = None ->
  let st' := Client.processImage_finish (Client.Body result) st in
  Client.message st' =
    u "No BOL number or weight found in the image. Please try a clearer image." /\
  Client.message st' <> u "Image processed successfully!" /\
  Client.isProcessing st' = false.
Proof.
  intros Hs Hd Hb Hw. unfold Client.processImage_finish, Client.on_result.
  rewrite Hs, Hd, Hb, Hw. cbn. repeat split. discriminate.
Qed.

Lemma nothing_found_witness :
  let st' :=
    Client.processImage_finish
      (Client.Body
         (Client.ApiResponse.Make true
            (Some (Client.ProcessedData.Make None None None (u "smudge")))
            None))
      (Client.State [] [] (u "Net Weight") true false
         (u "Processing image...") None) in
  Client.message st' =
    u "No BOL number or weight found in the image. Please try a clearer image." /\
  Client.message st' <> u "Image processed successfully!" /\
  Client.isProcessing st' = false.
Proof.
  apply (nothing_found_message
           (Client.ApiResponse.Make true
              (Some (Client.ProcessedData.Make None None None (u "smudge")))
              None)
           (Client.ProcessedData.Make None None None (u "smudge")));
    reflexivity.
Defined.

(** * Further properties of the handler *)

Section HandlerOutcomes.
Variable e : env.

Lemma last_status_snoc (evs : list event) (status : N) (body : json) :
  last_status (evs ++ [Respond status body]) = Some status.
Proof. unfold last_status. now rewrite last_snoc. Qed.

Lemma last_body_snoc (evs : list event) (status : N) (body : json) :
  last_body (evs ++ [Respond status body]) = Some body.
Proof. unfold last_body. now rewrite last_snoc. Qed.

Lemma failure_trace (p : jsstring) (err : exn) (w : world) :
  trace (failure p err w).2 =
  (trace w ++ (if bool_decide (is_Some (fs w !! p)) then [Unlink p] else []))
  ++ [Respond 500 (failure_body err)].
Proof. unfold failure. cbn [snd trace]. now rewrite app_assoc. Qed.

(** The whole run, from the answers of the collaborators. *)
Lemma process_image_full (file : multer_file)
      (files : gmap jsstring (list N)) :
  run (Server.process_image e (Some file)) files =
  let p := path file in
  match recognize e p files with
  | inl err => failure p err (World files [Recognize p])
  | inr text =>
      match files !! p with
      | None => failure p (ENOENT (u "open") p) (World files [Recognize p])
      | Some bytes =>
          let call := ChatCompletion (Server.prompt text) (image_url e bytes) in
          match completion e (Server.prompt text) (image_url e bytes) with
          | inl err => failure p err (World files [Recognize p; call])
          | inr None =>
              failure p
                (TypeError (u "Cannot read properties of null (reading '" ++
                            u "match" ++ u "')"))
                (World files [Recognize p; call])
          | inr (Some result) =>
              let data :=
                match JSON.parse (cleaned result) with
                | Some v => v
                | None => fallback_object result
                end in
              match data with
              | JNull =>
                  failure p
                    (TypeError (u "Cannot read properties of null (reading '" ++
                                u "bolNumber" ++ u "')"))
                    (World (delete p files) [Recognize p; call; Unlink p])
              | _ =>
                  (inr tt,
                   World (delete p files)
                     [Recognize p; call; Unlink p;
                      Respond 200 (success_body data text)])
              end
          end
      end
  end.
Proof.
  unfold run. rewrite process_image_run. cbv zeta. cbn [fs trace app].
  set (p := path file).
  destruct (recognize e p files) as [err|text]; [reflexivity|].
  rewrite processImageForBOLData_run. cbn [fs trace app].
  destruct (files !! p) as [bytes|] eqn:Hf; [|reflexivity].
  cbv zeta.
  destruct (completion e _ _) as [err|[result|]]; try reflexivity.
  destruct (JSON.parse (cleaned result)) as [v|]; cbn [fs trace app];
    rewrite Hf.
  - destruct v; reflexivity.
  - destruct (fallback_object result) eqn:Hfb; try reflexivity.
Qed.

End HandlerOutcomes.

(** X1. A request with a file is answered 200 exactly when the OCR
    engine returned a text, the uploaded file could be read, the model
    returned a text and that text does not parse to the JSON null; in
    every other case the answer is 500. *)
Theorem handler_status_is_200_or_500
        (e : env) (file : multer_file) (files : gmap jsstring (list N)) :
  last_status (trace (run (Server.process_image e (Some file)) files).2)
  = Some (if extraction_succeeds e file files then 200 else 500).
Proof.
  rewrite process_image_full. unfold extraction_succeeds. cbv zeta.
  destruct (recognize e (path file) files) as [err|text];
    [now rewrite failure_trace, last_status_snoc|].
  destruct (files !! path file) as [bytes|];
    [|now rewrite failure_trace, last_status_snoc].
  destruct (completion e _ _) as [err|[result|]];
    try now rewrite failure_trace, last_status_snoc.
  destruct (JSON.parse (cleaned result)) as [v|].
  - destruct v; try reflexivity. now rewrite failure_trace, last_status_snoc.
  - reflexivity.
Qed.

(** X2. Whatever happens, the handler removes the uploaded file and
    nothing else: the files on disk afterwards are the files before
    without the upload. *)
Theorem handler_removes_only_the_upload
        (e : env) (file : multer_file) (files : gmap jsstring (list N)) :
  fs (run (Server.process_image e (Some file)) files).2
  = delete (path file) files.
Proof.
  rewrite process_image_full. cbv zeta.
  destruct (recognize e (path file) files) as [err|text]; [reflexivity|].
  destruct (files !! path file) as [bytes|]; [|reflexivity].
  destruct (completion e _ _) as [err|[result|]]; try reflexivity.
  destruct (JSON.parse (cleaned result)) as [v|].
  - destruct v; try reflexivity.
    unfold failure. cbn [snd fs]. apply delete_delete_eq.
  - reflexivity.
Qed.

(** X3. The OCR engine is called once, first, on the uploaded file; the
    model is called at most once, after it, only when the engine
    returned a text and the file could be read, and then with the
    instruction built from that text and the file bytes as a JPEG data
    URL, whatever the type the upload declared. *)
Theorem handler_external_calls
        (e : env) (file : multer_file) (files : gmap jsstring (list N)) :
  external_calls (trace (run (Server.process_image e (Some file)) files).2)
  = Recognize (path file) ::
    match recognize e (path file) files, files !! path file with
    | inr text, Some bytes =>
        [ChatCompletion (Server.prompt text)
           (u "data:image/jpeg;base64," ++ base64 e bytes)]
    | _, _ => []
    end.
Proof.
  rewrite process_image_full. cbv zeta. unfold external_calls.
  destruct (recognize e (path file) files) as [err|text].
  { unfold failure. cbn [snd trace fs]. case_bool_decide; reflexivity. }
  destruct (files !! path file) as [bytes|] eqn:Hf.
  2:{ unfold failure. cbn [snd trace fs]. rewrite Hf.
      rewrite bool_decide_eq_false_2 by (intros [? ?]; discriminate).
      reflexivity. }
  fold (image_url e bytes).
  destruct (completion e _ _) as [err|[result|]];
    try (unfold failure; cbn [snd trace fs]; case_bool_decide; reflexivity).
  destruct (JSON.parse (cleaned result)) as [v|].
  - destruct v; try reflexivity.
    unfold failure; cbn [snd trace fs]; case_bool_decide; reflexivity.
  - reflexivity.
Qed.

(** X4. When the OCR engine fails, the model is never called: the
    upload, if it is on disk, is deleted and the answer is 500 with the
    fixed error text and the message of the engine's error as details. *)
Theorem ocr_failure_is_answered_500
        (e : env) (file : multer_file) (files : gmap jsstring (list N))
        (err : exn) :
  recognize e (path file) files = inl err ->
  run (Server.process_image e (Some file)) files =
  (inr tt,
   World (delete (path file) files)
     ([Recognize (path file)] ++
      (if bool_decide (is_Some (files !! path file))
       then [Unlink (path file)] else []) ++
      [Respond 500
         (JObject [ (u "error", JString (u "Failed to process image"));
                    (u "details", JString (message err)) ])])).
Proof.
  intros H. rewrite process_image_full. cbv zeta. rewrite H. reflexivity.
Qed.

Lemma ocr_failure_witness :
  run (Server.process_image env_ocr_fails (Some Sample.file)) Sample.files =
  (inr tt,
   World (delete (path Sample.file) Sample.files)
     ([Recognize (path Sample.file)] ++
      (if bool_decide (is_Some (Sample.files !! path Sample.file))
       then [Unlink (path Sample.file)] else []) ++
      [Respond 500
         (JObject [ (u "error", JString (u "Failed to process image"));
                    (u "details",
                     JString (message (Error (u "Error attempting to read image.")))) ])])).
Proof.
  apply (ocr_failure_is_answered_500 env_ocr_fails Sample.file Sample.files
           (Error (u "Error attempting to read image."))).
  reflexivity.
Defined.

(** X5. When the call to the model fails, the upload is deleted and the
    answer is 500 with the message of that error as details; the handler
    does not tell this failure from an OCR failure otherwise. *)
Theorem model_failure_is_answered_500
        (e : env) (file : multer_file) (files : gmap jsstring (list N))
        (text : jsstring) (bytes : list N) (err : exn) :
  recognize e (path file) files = inr text ->
  files !! path file = Some bytes ->
  completion e (Server.prompt text) (image_url e bytes) = inl err ->
  run (Server.process_image e (Some file)) files =
  (inr tt,
   World (delete (path file) files)
     [ Recognize (path file);
       ChatCompletion (Server.prompt text) (image_url e bytes);
       Unlink (path file);
       Respond 500
         (JObject [ (u "error", JString (u "Failed to process image"));
                    (u "details", JString (message err)) ]) ]).
Proof.
  intros Hr Hf Hc. rewrite process_image_full. cbv zeta.
  rewrite Hr, Hf, Hc. unfold failure. cbn [fs trace app].
  rewrite Hf, bool_decide_eq_true_2 by eauto. reflexivity.
Qed.

Lemma model_failure_witness :
  run (Server.process_image env_model_fails (Some Sample.file)) Sample.files =
  (inr tt,
   World (delete (path Sample.file) Sample.files)
     [ Recognize (path Sample.file);
       ChatCompletion (Server.prompt Sample.text)
         (image_url env_model_fails [137; 80; 78; 71]);
       Unlink (path Sample.file);
       Respond 500
         (JObject [ (u "error", JString (u "Failed to process image"));
                    (u "details",
                     JString (message (Error (u "429 You exceeded your current quota")))) ]) ]).
Proof.
  apply (model_failure_is_answered_500 env_model_fails Sample.file
           Sample.files Sample.text [137; 80; 78; 71]
           (Error (u "429 You exceeded your current quota")));
    vm_compute; reflexivity.
Defined.

(** X6. A completion that is the JSON text [null] parses, so the
    fallback does not run; reading a field of the result then throws
    after the upload was deleted, and the answer is 500, not a success
    with absent fields. *)
Theorem null_completion_is_answered_500
        (e : env) (file : multer_file) (files : gmap jsstring (list N))
        (text : jsstring) (bytes : list N) (result : jsstring) :
  recognize e (path file) files = inr text ->
  files !! path file = Some bytes ->
  completion e (Server.prompt text) (image_url e bytes) = inr (Some result) ->
  JSON.parse (cleaned result) = Some JNull ->
  let rw := run (Server.process_image e (Some file)) files in
  last_status (trace rw.2) = Some 500 /\
  Unlink (path file) ∈ trace rw.2 /\
  fs rw.2 !! path file = None.
Proof.
  intros Hr Hf Hc Hp. cbv zeta. rewrite process_image_full. cbv zeta.
  rewrite Hr, Hf, Hc, Hp. split; [|split].
  - now rewrite failure_trace, last_status_snoc.
  - rewrite failure_trace. cbn [trace]. set_solver.
  - unfold failure. cbn [snd fs]. apply lookup_delete_eq.
Qed.

Lemma null_completion_witness :
  let rw := run (Server.process_image (Sample.env_with (u " null "))
                   (Some Sample.file)) Sample.files in
  last_status (trace rw.2) = Some 500 /\
  Unlink (path Sample.file) ∈ trace rw.2 /\
  fs rw.2 !! path Sample.file = None.
Proof.
  apply (null_completion_is_answered_500 (Sample.env_with (u " null "))
           Sample.file Sample.files Sample.text [137; 80; 78; 71]
           (u " null "));
    vm_compute; reflexivity.
Defined.

Section ResponseFields.

Lemma field_names_cases (k : jsstring) :
  k ∈ field_names <->
  k = u "bolNumber" \/ k = u "weight" \/ k = u "weightType".
Proof.
  unfold field_names. rewrite !elem_of_cons, elem_of_nil. tauto.
Qed.

Lemma own_property_cons (k k' : jsstring) (x : json)
      (rest : list (jsstring * json)) :
  own_property k ((k', x) :: rest) =
  match own_property k rest with
  | Some w => Some w
  | None => if bool_decide (k' = k) then Some x else None
  end.
Proof. reflexivity. Qed.

Lemma success_body_inner (data : json) (text k : jsstring) :
  data_field (success_body data text) k =
  own_property k
    (omap (fun '(k0, v) => match v with
                           | Some w => Some (k0, w)
                           | None => None
                           end)
       [ (u "bolNumber", field_of data (u "bolNumber"));
         (u "weight", field_of data (u "weight"));
         (u "weightType", field_of data (u "weightType"));
         (u "rawOcrText", Some (JString (substring0 500 text))) ]).
Proof. reflexivity. Qed.

(** The [data] of a success response, key by key. *)
Lemma success_body_data (data : json) (text k : jsstring) :
  data_field (success_body data text) k =
  if bool_decide (k ∈ field_names) then field_of data k
  else if bool_decide (k = u "rawOcrText") then Some (JString (take 500 text))
  else None.
Proof.
  rewrite success_body_inner. unfold substring0.
  generalize (take 500 text) as t. intros t.
  destruct (bool_decide (k ∈ field_names)) eqn:Hin.
  - apply bool_decide_eq_true in Hin. apply field_names_cases in Hin.
    destruct Hin as [->|[->| ->]];
      destruct (field_of data (u "bolNumber")),
               (field_of data (u "weight")),
               (field_of data (u "weightType")); reflexivity.
  - apply bool_decide_eq_false in Hin.
    rewrite field_names_cases in Hin.
    assert (H1 : u "bolNumber" <> k) by (intros <-; tauto).
    assert (H2 : u "weight" <> k) by (intros <-; tauto).
    assert (H3 : u "weightType" <> k) by (intros <-; tauto).
    destruct (field_of data (u "bolNumber")),
             (field_of data (u "weight")),
             (field_of data (u "weightType"));
      cbn [omap list_omap];
      rewrite ?own_property_cons; cbn [own_property];
      rewrite ?(bool_decide_eq_false_2 _ H1), ?(bool_decide_eq_false_2 _ H2),
        ?(bool_decide_eq_false_2 _ H3);
      repeat case_bool_decide; congruence.
Qed.

End ResponseFields.



(** X8. A completion that parses to a number, a string, a boolean or an
    array is answered as a success whose [data] holds the OCR text
    alone: the three fields are left out, not null. *)
Theorem scalar_completion_gives_empty_success
        (e : env) (file : multer_file) (files : gmap jsstring (list N))
        (text : jsstring) (bytes : list N) (result : jsstring) (v : json) :
  recognize e (path file) files = inr text ->
  files !! path file = Some bytes ->
  completion e (Server.prompt text) (image_url e bytes) = inr (Some result) ->
  JSON.parse (cleaned result) = Some v ->
  v <> JNull ->
  (forall ms, v <> JObject ms) ->
  last (trace (run (Server.process_image e (Some file)) files).2)
  = Some (Respond 200
            (JObject
               [ (u "success", JBool true);
                 (u "data",
                  JObject [ (u "rawOcrText", JString (take 500 text)) ]) ])).
Proof.
  intros Hr Hf Hc Hp Hv Ho.
  rewrite process_image_full. cbv zeta. rewrite Hr, Hf, Hc, Hp.
  destruct v; try reflexivity; [contradiction | now destruct (Ho members)].
Qed.

Lemma scalar_completion_witness :
  last (trace (run (Server.process_image (Sample.env_with (u "4471"))
                      (Some Sample.file)) Sample.files).2)
  = Some (Respond 200
            (JObject
               [ (u "success", JBool true);
                 (u "data",
                  JObject [ (u "rawOcrText",
                             JString (take 500 Sample.text)) ]) ])).
Proof.
  apply (scalar_completion_gives_empty_success
           (Sample.env_with (u "4471")) Sample.file Sample.files
           Sample.text [137; 80; 78; 71] (u "4471") (JNumber (u "4471")));
    try (vm_compute; reflexivity); discriminate.
Defined.

(** X9. When the completion is not JSON, the request still succeeds: the
    answer is 200, and under each of the three field names its [data]
    holds what the pattern of that name finds in the completion, which
    is null or a non-empty string without a double quote; the fields
    are never left out. *)
Theorem non_json_completion_is_answered_200
        (e : env) (file : multer_file) (files : gmap jsstring (list N))
        (text : jsstring) (bytes : list N) (result : jsstring) :
  recognize e (path file) files = inr text ->
  files !! path file = Some bytes ->
  completion e (Server.prompt text) (image_url e bytes) = inr (Some result) ->
  JSON.parse (cleaned result) = None ->
  exists body,
    last (trace (run (Server.process_image e (Some file)) files).2)
      = Some (Respond 200 body) /\
    forall k, k ∈ field_names ->
      data_field body k = recovered k result /\
      (data_field body k = Some JNull \/
       exists v, data_field body k = Some (JString v) /\
                 v <> [] /\ quote ∉ v).
Proof.
  intros Hr Hf Hc Hp. exists (success_body (fallback_object result) text).
  split.
  - rewrite process_image_full. cbv zeta. rewrite Hr, Hf, Hc, Hp. reflexivity.
  - intros k Hk. rewrite success_body_data.
    rewrite bool_decide_eq_true_2 by assumption.
    rewrite (fallback_field k result Hk). split; [reflexivity|].
    destruct (recovered_cases k result) as [(v & Hv & ->)|[_ ->]];
      [right | now left].
    exists v. split; [reflexivity|].
    destruct Hv as (pre & (ws & post & _ & _ & Hne & Hq) & _). auto.
Qed.

Lemma non_json_response_witness :
  exists body,
    last (trace (run (Server.process_image (Sample.env_with Sample.chatty)
                        (Some Sample.file)) Sample.files).2)
      = Some (Respond 200 body) /\
    forall k, k ∈ field_names ->
      data_field body k = recovered k Sample.chatty /\
      (data_field body k = Some JNull \/
       exists v, data_field body k = Some (JString v) /\
                 v <> [] /\ quote ∉ v).
Proof.
  apply (non_json_completion_is_answered_200
           (Sample.env_with Sample.chatty) Sample.file Sample.files
           Sample.text [137; 80; 78; 71] Sample.chatty);
    vm_compute; reflexivity.
Defined.

(** * Stripping the code fences *)

Section Fences.

Lemma replace_go_skip (r : regex) (repl a s : jsstring) :
  replace_go r repl (length a) (a ++ s) = replace_go r repl 0 s.
Proof.
  induction a as [|c a IH]; [reflexivity|]. exact IH.
Qed.

(** A match in front of the text is replaced and the scan goes on
    behind it. *)
Lemma replace_go_match (r : regex) (repl a s : jsstring) cap :
  a <> [] ->
  exec_at r (a ++ s) = Some (s, cap) ->
  replace_go r repl 0 (a ++ s) = repl ++ replace_go r repl 0 s.
Proof.
  intros Ha Hex. destruct a as [|c a]; [contradiction|].
  cbn [app replace_go]. cbn [app] in Hex. rewrite Hex.
  replace (length (c :: a ++ s) - length s)%nat with (S (length a))
    by (cbn [length]; rewrite length_app; lia).
  now rewrite replace_go_skip.
Qed.

Lemma replace_go_no_match (r : regex) (repl : jsstring) c s :
  exec_at r (c :: s) = None ->
  replace_go r repl 0 (c :: s) = c :: replace_go r repl 0 s.
Proof. intros Hex. cbn [replace_go]. now rewrite Hex. Qed.

(** Neither fence pattern matches in front of a character that is not
    a backtick. *)
Lemma fence_needs_backtick c s :
  c <> backtick ->
  exec_at Server.fence_json (c :: s) = None /\
  exec_at Server.fence (c :: s) = None.
Proof.
  intros Hc. unfold exec_at, Server.fence_json, Server.fence.
  cbn [rmatch]. rewrite !rmatch_lit.
  assert (H : (96 =? c) = false).
  { apply N.eqb_neq. intros H. apply Hc. now rewrite <- H. }
  split; cbn [u map list_ascii_of_string startsWith];
    change (N_of_ascii "`") with 96; now rewrite H.
Qed.

(** Text without a backtick goes through both replacements as it is. *)
Lemma replace_go_plain (b s : jsstring) :
  backtick ∉ b ->
  replace_go Server.fence_json [] 0 (b ++ s)
    = b ++ replace_go Server.fence_json [] 0 s /\
  replace_go Server.fence [] 0 (b ++ s)
    = b ++ replace_go Server.fence [] 0 s.
Proof.
  induction b as [|c b IH]; intros Hb; [split; reflexivity|].
  assert (Hc : c <> backtick) by (intros ->; apply Hb, list_elem_of_here).
  assert (Hb' : backtick ∉ b) by (intros H; apply Hb, list_elem_of_further, H).
  destruct (fence_needs_backtick c (b ++ s) Hc) as [H1 H2].
  destruct (IH Hb') as [IH1 IH2].
  cbn [app]. rewrite !replace_go_no_match by assumption.
  now rewrite IH1, IH2.
Qed.

Lemma trimStart_snoc (b : jsstring) c :
  is_whitespace c = true ->
  trimStart (b ++ [c]) =
  match trimStart b with
  | [] => []
  | t => t ++ [c]
  end.
Proof.
  intros Hc. induction b as [|d b IH]; cbn [app trimStart].
  - now rewrite Hc.
  - destruct (is_whitespace d); [exact IH | reflexivity].
Qed.

Lemma trimEnd_snoc (x : jsstring) c :
  is_whitespace c = true -> trimEnd (x ++ [c]) = trimEnd x.
Proof.
  intros Hc. unfold trimEnd. rewrite rev_app_distr. cbn [rev app trimStart].
  now rewrite Hc.
Qed.

Lemma trim_snoc (b : jsstring) c :
  is_whitespace c = true -> trim (b ++ [c]) = trim b.
Proof.
  intros Hc. unfold trim. rewrite trimStart_snoc by assumption.
  destruct (trimStart b) as [|d t] eqn:Ht; [reflexivity|].
  now apply trimEnd_snoc.
Qed.

End Fences.

(** The two replacements and the trim, on a body without a backtick. *)
Lemma cleaned_without_backtick (body : jsstring) :
  backtick ∉ body ->
  cleaned body = trim body /\
  cleaned (fenced_json body) = trim body /\
  cleaned (fenced body) = trim body.
Proof.
  intros Hb.
  pose (tail := [newline] ++ u "```").
  destruct (replace_go_plain body [] Hb) as [P1 P2].
  destruct (replace_go_plain body tail Hb) as [Q1 Q2].
  rewrite app_nil_r in P1, P2.
  assert (T1 : replace_go Server.fence_json [] 0 tail = tail) by reflexivity.
  assert (T2 : replace_go Server.fence [] 0 tail = [newline]) by reflexivity.
  rewrite T1 in Q1. rewrite T2 in Q2.
  assert (E0 : cleaned body = trim body).
  { unfold cleaned, String_replace. rewrite P1.
    change (replace_go Server.fence_json [] 0 []) with (@nil N).
    rewrite app_nil_r, P2.
    change (replace_go Server.fence [] 0 []) with (@nil N).
    now rewrite app_nil_r. }
  assert (E1 : replace_go Server.fence_json [] 0 (fenced_json body)
               = body ++ tail).
  { transitivity (replace_go Server.fence_json [] 0
                    ((u "```json" ++ [newline]) ++ body ++ tail));
      [reflexivity|].
    rewrite (replace_go_match Server.fence_json [] _ _ None)
      by (discriminate || reflexivity).
    exact Q1. }
  assert (E2 : replace_go Server.fence_json [] 0 (fenced body)
               = [backtick; backtick; backtick; newline] ++ body ++ tail).
  { transitivity (replace_go Server.fence_json [] 0
                    (backtick :: backtick :: backtick :: newline ::
                     body ++ tail));
      [reflexivity|].
    rewrite !replace_go_no_match by reflexivity.
    now rewrite Q1. }
  assert (E3 : replace_go Server.fence [] 0
                 ([backtick; backtick; backtick; newline] ++ body ++ tail)
               = body ++ [newline]).
  { rewrite (replace_go_match Server.fence [] _ _ None)
      by (discriminate || reflexivity).
    exact Q2. }
  split; [exact E0|]. unfold cleaned, String_replace.
  split.
  - rewrite E1, Q2. now apply trim_snoc.
  - rewrite E2, E3. now apply trim_snoc.
Qed.


(** X10. For a body without a backtick, the text the strict parse sees
    is the trimmed body, whether the model sent the body bare, inside a
    [json] code fence or inside a plain code fence. *)
Theorem fences_are_stripped (body : jsstring) :
  backtick ∉ body ->
  cleaned body = trim body /\
  cleaned (fenced_json body) = trim body /\
  cleaned (fenced body) = trim body.
Proof. exact (cleaned_without_backtick body). Qed.

Lemma fences_witness :
  let body := u "{}" in
  cleaned body = trim body /\
  cleaned (fenced_json body) = trim body /\
  cleaned (fenced body) = trim body.
Proof.
  apply (fences_are_stripped (u "{}")).
  vm_compute. intros H.
  repeat (apply elem_of_cons in H as [H|H]; [discriminate H|]).
  now apply elem_of_nil in H.
Defined.

(** * The upload configuration *)

Section UploadFacts.

Lemma pretty_N_char_digit (x : N) :
  is_digit (N_of_ascii (pretty_N_char x)) = true.
Proof. unfold pretty_N_char. repeat case_match; reflexivity. Qed.

Lemma pretty_N_go_digits (x : N) (s : string) :
  Forall (fun c => is_digit c = true) (u s) ->
  Forall (fun c => is_digit c = true) (u (pretty_N_go x s)).
Proof.
  revert s. induction (N.lt_wf_0 x) as [x _ IH]. intros s Hs.
  destruct (decide (x = 0)) as [->|Hx].
  - now rewrite pretty_N_go_0.
  - rewrite pretty_N_go_step by lia. apply IH.
    + apply N.div_lt; lia.
    + constructor; [apply pretty_N_char_digit | exact Hs].
Qed.

(** The decimal form of a number is made of digits. *)
Lemma pretty_digits (x : N) :
  Forall (fun c => is_digit c = true) (u (pretty x)).
Proof.
  unfold pretty, pretty_N. destruct (decide (x = 0)).
  - repeat constructor.
  - apply pretty_N_go_digits. constructor.
Qed.

Lemma u_inj (a b : string) : u a = u b -> a = b.
Proof.
  revert b. induction a as [|c a IH]; intros [|d b]; try discriminate;
    [reflexivity|].
  unfold u. cbn [list_ascii_of_string map]. intros [= Hc Hab].
  f_equal; [| now apply IH].
  rewrite <- (ascii_N_embedding c), <- (ascii_N_embedding d). now rewrite Hc.
Qed.

Lemma digits_then_dash (a a' t t' : jsstring) :
  Forall (fun c => is_digit c = true) a ->
  Forall (fun c => is_digit c = true) a' ->
  a ++ 45 :: t = a' ++ 45 :: t' -> a = a' /\ t = t'.
Proof.
  intros Ha Ha' H.
  assert (Ht : 45 :: t = 45 :: t').
  { rewrite <- (drop_while_app is_digit a 45 t),
            <- (drop_while_app is_digit a' 45 t'), H
      by (assumption || reflexivity). reflexivity. }
  injection Ht as ->. apply app_inv_tail in H. auto.
Qed.

End UploadFacts.

(** X11. The name under which an upload is stored determines both the
    time of the upload and the original name: two uploads get the same
    stored name only when they carry the same original name in the same
    millisecond. *)
Theorem filename_is_injective
        (now now' : N) (originalname originalname' : jsstring) :
  now <> now' \/ originalname <> originalname' ->
  Upload.filename now originalname <> Upload.filename now' originalname'.
Proof.
  intros Hne Heq. unfold Upload.filename in Heq.
  apply (digits_then_dash (u (pretty now)) (u (pretty now'))) in Heq
    as [Hn Ho]; try apply pretty_digits.
  apply u_inj in Hn. apply (inj pretty) in Hn. tauto.
Qed.

Lemma filename_witness :
  Upload.filename 1700000000000 (u "bol.png")
  <> Upload.filename 1700000000001 (u "bol.png").
Proof.
  apply (filename_is_injective 1700000000000 1700000000001
           (u "bol.png") (u "bol.png")).
  left. discriminate.
Defined.

(** X12. A file whose declared type does not start with [image/] is
    refused before the handler runs: the error of the filter reaches the
    error-handling middleware, which answers 500 (not 400) with the text
    of that error; the OCR engine and the model are not called and no
    file is touched.  A type that starts with [image/] is not refused. *)
Theorem non_image_upload_is_answered_500
        (mimetype : jsstring) (files : gmap jsstring (list N)) :
  match Upload.refused mimetype with
  | Some answer =>
      startsWith (u "image/") mimetype = false /\
      run answer files =
      (inr tt,
       World files
         [Respond 500
            (JObject [(u "error",
                       JString (u "Only image files are allowed!"))])])
  | None => startsWith (u "image/") mimetype = true
  end.
Proof.
  unfold Upload.refused, Upload.fileFilter.
  destruct (startsWith (u "image/") mimetype); [reflexivity|].
  split; reflexivity.
Qed.

(** X13. The error-handling middleware answers 400 for one error only,
    the size limit of multer, and then with the text [File too large];
    every other error, of multer or not, is answered 500 with its own
    message. *)
Theorem only_the_size_limit_is_answered_400
        (error : Upload.failure) (files : gmap jsstring (list N)) :
  let rw := run (Upload.error_middleware error) files in
  fs rw.2 = files /\
  ((exists m, error = Upload.MulterError (u "LIMIT_FILE_SIZE") m) /\
   trace rw.2 =
     [Respond 400 (JObject [(u "error", JString (u "File too large"))])]
   \/
   (forall m, error <> Upload.MulterError (u "LIMIT_FILE_SIZE") m) /\
   trace rw.2 =
     [Respond 500
        (JObject [(u "error", JString (Upload.failure_message error))])]).
Proof.
  cbv zeta. destruct error as [err|code m]; cbn.
  - split; [reflexivity|]. right. split; [discriminate | reflexivity].
  - case_bool_decide as Hc; cbn; (split; [reflexivity|]).
    + left. subst code. split; [eauto | reflexivity].
    + right. split; [|reflexivity]. intros m' [= H _]. contradiction.
Qed.

(** * Further properties of the component *)

Section ViewFacts.

Lemma includes_unfold (p s : jsstring) :
  includes p s =
  startsWith p s || match s with
                    | [] => false
                    | _ :: s' => includes p s'
                    end.
Proof. destruct s; reflexivity. Qed.

Lemma includes_prefix (p s : jsstring) : includes p (p ++ s) = true.
Proof. rewrite includes_unfold, startsWith_app. reflexivity. Qed.

Lemma failed_is_red (m : jsstring) :
  View.message_colour (u "Failed to process image: " ++ m) = View.Red.
Proof.
  unfold View.message_colour.
  change (u "Failed to process image: " ++ m)
    with (u "Failed" ++ (u " to process image: " ++ m)).
  now rewrite includes_prefix, orb_true_r.
Qed.

Lemma error_is_red (m : jsstring) :
  View.message_colour (u "Error: " ++ m) = View.Red.
Proof.
  unfold View.message_colour.
  change (u "Error: " ++ m) with (u "Error" ++ (u ": " ++ m)).
  now rewrite includes_prefix.
Qed.

End ViewFacts.

(** X14. Dropping a file whose type does not start with [image/] sends
    nothing: no preview is read and no request is made, the fields and
    the preview keep their values, and only the message and the drag
    highlight change. *)
Theorem dropping_a_non_image_sends_nothing
        (backend : jsstring) (file : Client.File) (others : list Client.File)
        (st : Client.state) :
  startsWith (u "image/") (Client.type file) = false ->
  Client.handleDrop backend (file :: others) st =
  (Client.State (Client.bolNumber st) (Client.weight st)
     (Client.weightType st) (Client.isProcessing st) false
     (u "Please drop an image file (PNG, JPG, etc.)")
     (Client.uploadedImage st),
   []).
Proof. intros H. unfold Client.handleDrop. now rewrite H. Qed.

Lemma dropping_a_non_image_witness :
  Client.handleDrop (u "http://localhost:5001")
    [Client.MkFile (u "notes.txt") (u "text/plain") [104; 105]]
    Client.initial =
  (Client.State [] [] [] false false
     (u "Please drop an image file (PNG, JPG, etc.)") None,
   []).
Proof.
  apply (dropping_a_non_image_sends_nothing (u "http://localhost:5001")
           (Client.MkFile (u "notes.txt") (u "text/plain") [104; 105])
           [] Client.initial).
  reflexivity.
Defined.

(** X15. The file input makes no check of its own: a file of any type
    chosen there is sent to the service, while the same file dropped on
    the page is not when its type is not an image type. *)
Theorem file_input_sends_any_type
        (backend : jsstring) (file : Client.File) (st : Client.state) :
  startsWith (u "image/") (Client.type file) = false ->
  (Client.handleFileInput backend (Some file) st).2 =
    [ Client.ReadAsDataURL file;
      Client.Fetch (backend ++ u "/api/process-image") (u "POST")
        [(u "image", file)] ] /\
  (Client.handleDrop backend [file] st).2 = [].
Proof.
  intros H. split; [reflexivity|]. unfold Client.handleDrop. now rewrite H.
Qed.

Lemma file_input_witness :
  let file := Client.MkFile (u "notes.txt") (u "text/plain") [104; 105] in
  (Client.handleFileInput (u "http://localhost:5001") (Some file)
     Client.initial).2 =
    [ Client.ReadAsDataURL file;
      Client.Fetch (u "http://localhost:5001" ++ u "/api/process-image")
        (u "POST") [(u "image", file)] ] /\
  (Client.handleDrop (u "http://localhost:5001") [file] Client.initial).2 = [].
Proof.
  apply (file_input_sends_any_type (u "http://localhost:5001")
           (Client.MkFile (u "notes.txt") (u "text/plain") [104; 105])
           Client.initial).
  reflexivity.
Defined.

(** X16. However the request ends (a parsed body of any kind, an error
    thrown, something else thrown), the component stops processing, and
    neither the preview nor the drag highlight is touched. *)
Theorem finish_always_stops_processing
        (r : Client.fetched) (st : Client.state) :
  let st' := Client.processImage_finish r st in
  Client.isProcessing st' = false /\
  Client.uploadedImage st' = Client.uploadedImage st /\
  Client.dragOver st' = Client.dragOver st.
Proof.
  cbv zeta. unfold Client.processImage_finish, Client.on_result.
  destruct r as [result|m|]; [|repeat split..].
  destruct (Client.ApiResponse.success result);
    [destruct (Client.ApiResponse.data result) as [d|]|];
    [|repeat split..].
  destruct (negb (Client.truthy (Client.ProcessedData.bolNumber d)) &&
            negb (Client.truthy (Client.ProcessedData.weight d)));
    repeat split.
Qed.

(** X17. On a success with data the three fields show the returned
    values, null shown as empty, and the message says that nothing was
    found exactly when the BOL number and the weight are both null or
    empty, whatever the weight type; otherwise it is the success
    message. *)
Theorem success_message_depends_on_number_and_weight
        (result : Client.ApiResponse.t) (data : Client.ProcessedData.t)
        (st : Client.state) :
  Client.ApiResponse.success result = true ->
  Client.ApiResponse.data result = Some data ->
  let st' := Client.processImage_finish (Client.Body result) st in
  Client.bolNumber st' = Client.or_empty (Client.ProcessedData.bolNumber data) /\
  Client.weight st' = Client.or_empty (Client.ProcessedData.weight data) /\
  Client.weightType st' =
    Client.or_empty (Client.ProcessedData.weightType data) /\
  (Client.bolNumber st' = [] /\ Client.weight st' = [] ->
   Client.message st' = msg_nothing) /\
  (Client.bolNumber st' <> [] \/ Client.weight st' <> [] ->
   Client.message st' = msg_success).
Proof.
  intros Hs Hd. cbv zeta.
  unfold Client.processImage_finish, Client.on_result. rewrite Hs, Hd.
  destruct data as [[[|b bs]|] [[|x xs]|] wt raw]; cbn;
    (split; [reflexivity|]); (split; [reflexivity|]);
    (split; [reflexivity|]);
    (split; [ intros [H1 H2]; (discriminate || reflexivity)
            | intros [H|H]; (congruence || reflexivity) ]).
Qed.

Lemma success_message_witness :
  let result :=
    Client.ApiResponse.Make true
      (Some (Client.ProcessedData.Make (Some []) None (Some (u "Net Weight"))
               (u "smudge"))) None in
  let st' := Client.processImage_finish (Client.Body result) Client.initial in
  Client.bolNumber st' = Client.or_empty (Some []) /\
  Client.weight st' = Client.or_empty None /\
  Client.weightType st' = Client.or_empty (Some (u "Net Weight")) /\
  (Client.bolNumber st' = [] /\ Client.weight st' = [] ->
   Client.message st' = msg_nothing) /\
  (Client.bolNumber st' <> [] \/ Client.weight st' <> [] ->
   Client.message st' = msg_success).
Proof.
  apply (success_message_depends_on_number_and_weight
           (Client.ApiResponse.Make true
              (Some (Client.ProcessedData.Make (Some []) None
                       (Some (u "Net Weight")) (u "smudge"))) None)
           (Client.ProcessedData.Make (Some []) None (Some (u "Net Weight"))
              (u "smudge")) Client.initial);
    reflexivity.
Defined.

(** X18. Unless the service reports success and sends data, the end of
    the request changes no field: BOL number, weight and weight type
    stay as they were when the request was sent.  That covers an error
    response, a success without data, and anything thrown on the way. *)
Theorem failed_request_leaves_the_fields
        (r : Client.fetched) (st : Client.state) :
  (forall result data,
      r = Client.Body result ->
      Client.ApiResponse.success result = true ->
      Client.ApiResponse.data result <> Some data) ->
  let st' := Client.processImage_finish r st in
  Client.bolNumber st' = Client.bolNumber st /\
  Client.weight st' = Client.weight st /\
  Client.weightType st' = Client.weightType st.
Proof.
  intros H. cbv zeta. unfold Client.processImage_finish, Client.on_result.
  destruct r as [result|m|]; [|repeat split..].
  destruct (Client.ApiResponse.success result) eqn:Hs; [|repeat split].
  destruct (Client.ApiResponse.data result) as [d|] eqn:Hd; [|repeat split].
  now destruct (H result d eq_refl Hs).
Qed.

Lemma failed_request_witness :
  let st :=
    Client.State [] [] (u "Net Weight") true false
      (u "Processing image...") None in
  let st' :=
    Client.processImage_finish (Client.ThrownError (u "Failed to fetch")) st in
  Client.bolNumber st' = Client.bolNumber st /\
  Client.weight st' = Client.weight st /\
  Client.weightType st' = Client.weightType st.
Proof.
  apply (failed_request_leaves_the_fields
           (Client.ThrownError (u "Failed to fetch"))
           (Client.State [] [] (u "Net Weight") true false
              (u "Processing image...") None)).
  intros result data H. discriminate H.
Defined.

(** X19. The colour of the message tells the outcome: green when the
    service succeeded and found a BOL number or a weight, blue when it
    succeeded and found neither, red in every other case, whatever the
    text of the error. *)
Theorem message_colour_tells_the_outcome
        (r : Client.fetched) (st : Client.state) :
  View.message_colour (Client.message (Client.processImage_finish r st)) =
  match r with
  | Client.Body result =>
      if Client.ApiResponse.success result then
        match Client.ApiResponse.data result with
        | Some data =>
            if Client.truthy (Client.ProcessedData.bolNumber data) ||
               Client.truthy (Client.ProcessedData.weight data)
            then View.Green else View.Blue
        | None => View.Red
        end
      else View.Red
  | _ => View.Red
  end.
Proof.
  unfold Client.processImage_finish, Client.on_result, Client.on_thrown.
  destruct r as [result|m|].
  - destruct (Client.ApiResponse.success result).
    + destruct (Client.ApiResponse.data result) as [d|].
      * destruct (Client.truthy (Client.ProcessedData.bolNumber d)),
                 (Client.truthy (Client.ProcessedData.weight d));
          vm_compute; reflexivity.
      * apply failed_is_red.
    + apply error_is_red.
  - apply failed_is_red.
  - apply failed_is_red.
Qed.

(** X20. [clearData] empties what is on display whatever the state: the
    three fields, the message and the preview; afterwards the weight
    type label, the message box, the preview and the button that calls
    it are all hidden.  It does not stop a request in progress, and
    doing it twice changes nothing more. *)
Theorem clearData_hides_everything (st : Client.state) :
  let st' := Client.clearData st in
  View.shows_weight_type st' = false /\
  View.shows_message st' = false /\
  View.shows_preview st' = false /\
  View.shows_clear_button st' = false /\
  Client.isProcessing st' = Client.isProcessing st /\
  Client.clearData st' = st'.
Proof. repeat split. Qed.

(** X21. A whole successful upload, from accepting the file to the
    answer: whatever was on display before, the three fields end up
    with the values of the response (null as empty), the weight type
    included, and the component is no longer processing. *)
Theorem successful_upload_replaces_all_fields
        (backend : jsstring) (file : Client.File) (st : Client.state)
        (result : Client.ApiResponse.t) (data : Client.ProcessedData.t) :
  Client.ApiResponse.success result = true ->
  Client.ApiResponse.data result = Some data ->
  let st' :=
    Client.processImage_finish (Client.Body result)
      (Client.processImage_start backend file st).1 in
  Client.bolNumber st' = Client.or_empty (Client.ProcessedData.bolNumber data) /\
  Client.weight st' = Client.or_empty (Client.ProcessedData.weight data) /\
  Client.weightType st' =
    Client.or_empty (Client.ProcessedData.weightType data) /\
  Client.isProcessing st' = false /\
  Client.uploadedImage st' = Client.uploadedImage st.
Proof.
  intros Hs Hd. cbv zeta.
  unfold Client.processImage_finish, Client.on_result. rewrite Hs, Hd.
  destruct (negb (Client.truthy (Client.ProcessedData.bolNumber data)) &&
            negb (Client.truthy (Client.ProcessedData.weight data)));
    repeat split.
Qed.

Lemma successful_upload_witness :
  let data :=
    Client.ProcessedData.Make (Some (u "9001")) (Some (u "75 kg")) None
      (u "BOL 9001 75 kg") in
  let st' :=
    Client.processImage_finish
      (Client.Body (Client.ApiResponse.Make true (Some data) None))
      (Client.processImage_start (u "http://localhost:5001")
         (Client.MkFile (u "next.png") (u "image/png") [137; 80])
         (Client.State (u "4471") (u "500 lbs") (u "Net Weight") false false
            (u "Image processed successfully!") None)).1 in
  Client.bolNumber st' = Client.or_empty (Some (u "9001")) /\
  Client.weight st' = Client.or_empty (Some (u "75 kg")) /\
  Client.weightType st' = Client.or_empty None /\
  Client.isProcessing st' = false /\
  Client.uploadedImage st' = None.
Proof.
  apply (successful_upload_replaces_all_fields (u "http://localhost:5001")
           (Client.MkFile (u "next.png") (u "image/png") [137; 80])
           (Client.State (u "4471") (u "500 lbs") (u "Net Weight") false false
              (u "Image processed successfully!") None)
           (Client.ApiResponse.Make true
              (Some (Client.ProcessedData.Make (Some (u "9001"))
                       (Some (u "75 kg")) None (u "BOL 9001 75 kg"))) None)
           (Client.ProcessedData.Make (Some (u "9001")) (Some (u "75 kg")) None
              (u "BOL 9001 75 kg")));
    reflexivity.
Defined.

(** X22. When the model returns no text at all ([content] is null), the
    strict parse throws, and so does the fallback that was meant to
    catch it: the request is answered 500 and the upload is deleted. *)
Theorem missing_content_is_answered_500
        (e : env) (file : multer_file) (files : gmap jsstring (list N))
        (text : jsstring) (bytes : list N) :
  recognize e (path file) files = inr text ->
  files !! path file = Some bytes ->
  completion e (Server.prompt text) (image_url e bytes) = inr None ->
  let rw := run (Server.process_image e (Some file)) files in
  last_status (trace rw.2) = Some 500 /\
  Unlink (path file) ∈ trace rw.2 /\
  fs rw.2 !! path file = None.
Proof.
  intros Hr Hf Hc. cbv zeta. rewrite process_image_full. cbv zeta.
  rewrite Hr, Hf, Hc. split; [|split].
  - now rewrite failure_trace, last_status_snoc.
  - rewrite failure_trace. cbn [fs trace].
    rewrite Hf, bool_decide_eq_true_2 by eauto.
    apply elem_of_app. left. apply elem_of_app. right. apply list_elem_of_here.
  - unfold failure. cbn [snd fs]. apply lookup_delete_eq.
Qed.

Lemma missing_content_witness :
  let e := Env (fun _ _ => inr Sample.text) (fun _ _ => inr None)
               (fun _ => u "iVBORw==") in
  let rw := run (Server.process_image e (Some Sample.file)) Sample.files in
  last_status (trace rw.2) = Some 500 /\
  Unlink (path Sample.file) ∈ trace rw.2 /\
  fs rw.2 !! path Sample.file = None.
Proof.
  apply (missing_content_is_answered_500
           (Env (fun _ _ => inr Sample.text) (fun _ _ => inr None)
                (fun _ => u "iVBORw=="))
           Sample.file Sample.files Sample.text [137; 80; 78; 71]);
    vm_compute; reflexivity.
Defined.

(** X23. In a success response an OCR text of at most 500 characters is
    returned whole, and a longer one is cut to exactly 500. *)
Theorem short_ocr_text_is_returned_whole
        (e : env) (file : multer_file) (files : gmap jsstring (list N))
        (body : json) (text : jsstring) :
  Respond 200 body ∈ trace (run (Server.process_image e (Some file)) files).2 ->
  recognize e (path file) files = inr text ->
  ((length text <= 500)%nat ->
   data_field body (u "rawOcrText") = Some (JString text)) /\
  ((500 < length text)%nat ->
   exists t, data_field body (u "rawOcrText") = Some (JString t) /\
             length t = 500%nat).
Proof.
  intros H Hr.
  apply process_image_200 in H as (text' & data & w1 & Hocr & _ & ->).
  assert (text' = text) as -> by congruence.
  rewrite success_body_rawOcrText. split.
  - intros Hle. now rewrite take_ge.
  - intros Hlt. eexists. split; [reflexivity|]. rewrite length_take. lia.
Qed.

Lemma short_ocr_text_witness :
  ((length Sample.text <= 500)%nat ->
   data_field Sample.response (u "rawOcrText")
     = Some (JString Sample.text)) /\
  ((500 < length Sample.text)%nat ->
   exists t, data_field Sample.response (u "rawOcrText")
               = Some (JString t) /\
             length t = 500%nat).
Proof.
  apply (short_ocr_text_is_returned_whole
           (Sample.env_with Sample.fenced_json) Sample.file Sample.files
           Sample.response Sample.text).
  - vm_compute. do 3 apply list_elem_of_further. apply list_elem_of_here.
  - reflexivity.
Defined.

Lemma includes_middle (p pre s : jsstring) :
  includes p (pre ++ p ++ s) = true.
Proof.
  induction pre as [|c pre IH].
  - rewrite app_nil_l. apply includes_prefix.
  - cbn [app]. rewrite includes_unfold, IH. apply orb_true_r.
Qed.

(** X24. In the fallback a field whose quoted name followed by a colon
    stands nowhere in the completion is null; in particular the key of
    [weightType] is never taken for the one of [weight]. *)
Theorem absent_key_gives_null (name result : jsstring) :
  includes (field_key name) result = false ->
  recovered name result = Some JNull.
Proof.
  intros H. apply recovered_none. intros pre v (ws & post & -> & _).
  now rewrite includes_middle in H.
Qed.

Lemma absent_key_witness :
  recovered (u "weight")
    (q ++ u "weightType" ++ q ++ u ": " ++ q ++ u "Net Weight" ++ q)
  = Some JNull.
Proof.
  apply (absent_key_gives_null (u "weight")
           (q ++ u "weightType" ++ q ++ u ": " ++ q ++ u "Net Weight" ++ q)).
  vm_compute. reflexivity.
Defined.

(** * [JSON.parse] and white space around the text *)

Section ParserTrim.

Lemma parse_value_S fuel s :
  parse_value (S fuel) s =
  match s with
  | [] => Invalid
  | c :: s' =>
      if c =? 123 then
        match skip_ws s' with
        | d :: s'' =>
            if d =? 125 then Parsed (JObject []) s''
            else
              match parse_members fuel (skip_ws s') [] with
              | Parsed ms r => Parsed (JObject ms) r
              | Invalid => Invalid
              | OutOfFuel => OutOfFuel
              end
        | [] => Invalid
        end
      else if c =? 91 then
        match skip_ws s' with
        | d :: s'' =>
            if d =? 93 then Parsed (JArray []) s''
            else
              match parse_elements fuel (skip_ws s') [] with
              | Parsed vs r => Parsed (JArray vs) r
              | Invalid => Invalid
              | OutOfFuel => OutOfFuel
              end
        | [] => Invalid
        end
      else if c =? quote then
        match string_body s' with
        | Some (v, r) => Parsed (JString v) r
        | None => Invalid
        end
      else if (c =? 45) || is_digit c then
        match number s with
        | Some (n, r) => Parsed (JNumber n) r
        | None => Invalid
        end
      else if startsWith (u "true") s then Parsed (JBool true) (drop 4 s)
      else if startsWith (u "false") s then Parsed (JBool false) (drop 5 s)
      else if startsWith (u "null") s then Parsed JNull (drop 4 s)
      else Invalid
  end.
Proof. reflexivity. Qed.

Lemma parse_members_S fuel s acc :
  parse_members (S fuel) s acc =
  match s with
  | c :: s' =>
      if c =? quote then
        match string_body s' with
        | Some (key, r) =>
            match skip_ws r with
            | d :: r' =>
                if d =? 58 then
                  match parse_value fuel (skip_ws r') with
                  | Parsed v r2 =>
                      match skip_ws r2 with
                      | e :: r3 =>
                          if e =? 44 then
                            parse_members fuel (skip_ws r3) ((key, v) :: acc)
                          else if e =? 125 then
                            Parsed (rev ((key, v) :: acc)) r3
                          else Invalid
                      | [] => Invalid
                      end
                  | Invalid => Invalid
                  | OutOfFuel => OutOfFuel
                  end
                else Invalid
            | [] => Invalid
            end
        | None => Invalid
        end
      else Invalid
  | [] => Invalid
  end.
Proof. reflexivity. Qed.

(** More fuel does not change an outcome that did not lack fuel. *)
Lemma parse_fuel_S (fuel : nat) :
  (forall s, parse_value fuel s <> OutOfFuel ->
             parse_value (S fuel) s = parse_value fuel s) /\
  (forall s acc, parse_elements fuel s acc <> OutOfFuel ->
                 parse_elements (S fuel) s acc = parse_elements fuel s acc) /\
  (forall s acc, parse_members fuel s acc <> OutOfFuel ->
                 parse_members (S fuel) s acc = parse_members fuel s acc).
Proof.
  induction fuel as [|fuel (IHv & IHe & IHm)];
    [repeat split; intros; contradiction|].
  repeat split.
  - intros s H. rewrite (parse_value_S (S fuel)). rewrite parse_value_S in H |- *.
    repeat case_match; try reflexivity; try contradiction;
      simplify_eq;
      repeat match goal with
      | H1 : parse_members (S fuel) ?s ?a = _,
        H2 : parse_members fuel ?s ?a = _ |- _ =>
          rewrite IHm in H1 by (rewrite H2; discriminate);
          rewrite H1 in H2; clear H1
      | H1 : parse_elements (S fuel) ?s ?a = _,
        H2 : parse_elements fuel ?s ?a = _ |- _ =>
          rewrite IHe in H1 by (rewrite H2; discriminate);
          rewrite H1 in H2; clear H1
      end; congruence.
  - intros s acc H.
    rewrite (parse_elements_S (S fuel)). rewrite parse_elements_S in H |- *.
    destruct (parse_value fuel s) as [v r| |] eqn:Hv; [| |contradiction].
    + rewrite IHv, Hv by (rewrite Hv; discriminate).
      destruct (skip_ws r) as [|d r']; [reflexivity|].
      destruct (d =? 44); [now apply IHe | reflexivity].
    + rewrite IHv, Hv by (rewrite Hv; discriminate). reflexivity.
  - intros s acc H.
    rewrite (parse_members_S (S fuel)). rewrite parse_members_S in H |- *.
    destruct s as [|c s']; [reflexivity|].
    destruct (c =? quote); [|reflexivity].
    destruct (string_body s') as [[key r]|]; [|reflexivity].
    destruct (skip_ws r) as [|d r']; [reflexivity|].
    destruct (d =? 58); [|reflexivity].
    destruct (parse_value fuel (skip_ws r')) as [v r2| |] eqn:Hv;
      [| |contradiction].
    + rewrite IHv, Hv by (rewrite Hv; discriminate).
      destruct (skip_ws r2) as [|x r3]; [reflexivity|].
      destruct (x =? 44); [now apply IHm | reflexivity].
    + rewrite IHv, Hv by (rewrite Hv; discriminate). reflexivity.
Qed.

Lemma parse_value_more_fuel (f f' : nat) (s : jsstring) :
  (f <= f')%nat -> parse_value f s <> OutOfFuel ->
  parse_value f' s = parse_value f s.
Proof.
  intros Hle H. induction Hle as [|f' Hle IH]; [reflexivity|].
  rewrite <- IH. apply (proj1 (parse_fuel_S f')). now rewrite IH.
Qed.

End ParserTrim.

Section ParserSnoc.
Variable c : N.
Hypothesis Hc : is_json_ws c = true.

Lemma json_ws_cases : c = 9 \/ c = 10 \/ c = 13 \/ c = 32.
Proof.
  unfold is_json_ws in Hc.
  repeat (apply orb_true_iff in Hc as [Hc|Hc]);
    apply N.eqb_eq in Hc; auto.
Qed.

Ltac ws_cases := destruct json_ws_cases as [->|[->|[->| ->]]].

Lemma skip_ws_snoc (s : jsstring) :
  skip_ws (s ++ [c]) =
  match skip_ws s with
  | [] => []
  | d :: t => d :: t ++ [c]
  end.
Proof.
  induction s as [|x s IH]; cbn [app skip_ws].
  - now rewrite Hc.
  - destruct (is_json_ws x); [exact IH | reflexivity].
Qed.

Lemma push_snoc x r :
  push x (match r with
          | Some (v, rest) => Some (v, rest ++ [c])
          | None => None
          end) =
  match push x r with
  | Some (v, rest) => Some (v, rest ++ [c])
  | None => None
  end.
Proof. now destruct r as [[v rest]|]. Qed.

Lemma string_body_snoc (s : jsstring) :
  string_body (s ++ [c]) =
  match string_body s with
  | Some (v, r) => Some (v, r ++ [c])
  | None => None
  end.
Proof.
  induction s as [s IH] using (induction_ltof1 _ (@length N)).
  unfold ltof in IH.
  destruct s as [|x s].
  - ws_cases; reflexivity.
  - cbn [app string_body].
    destruct (x =? quote); [reflexivity|].
    destruct (x =? backslash).
    + destruct s as [|e s].
      * ws_cases; reflexivity.
      * cbn [app]. destruct (e =? 117).
        -- destruct s as [|h1 [|h2 [|h3 [|h4 s]]]].
           ++ ws_cases; reflexivity.
           ++ ws_cases; reflexivity.
           ++ ws_cases; reflexivity.
           ++ cbn [app]. unfold hex4.
              destruct (hex_val h1), (hex_val h2), (hex_val h3);
                try reflexivity; ws_cases; reflexivity.
           ++ cbn [app]. destruct (hex4 h1 h2 h3 h4); [|reflexivity].
              rewrite IH by (cbn [length]; lia). apply push_snoc.
        -- destruct (unescape e); [|reflexivity].
           rewrite IH by (cbn [length]; lia). apply push_snoc.
    + destruct (x <? 32); [reflexivity|].
      rewrite IH by (cbn [length]; lia). apply push_snoc.
Qed.

Lemma digits_snoc (s : jsstring) :
  digits (s ++ [c]) = ((digits s).1, (digits s).2 ++ [c]).
Proof.
  induction s as [|x s IH]; cbn [app digits].
  - ws_cases; reflexivity.
  - destruct (is_digit x); [|reflexivity].
    rewrite IH. now destruct (digits s).
Qed.

Lemma digits1_snoc (s : jsstring) :
  digits1 (s ++ [c]) =
  match digits1 s with
  | Some (d, r) => Some (d, r ++ [c])
  | None => None
  end.
Proof.
  unfold digits1. rewrite digits_snoc.
  destruct (digits s) as [[|x d] r]; reflexivity.
Qed.

Lemma number_snoc (s : jsstring) :
  number (s ++ [c]) =
  match number s with
  | Some (n, r) => Some (n, r ++ [c])
  | None => None
  end.
Proof.
  assert (Hint : number_int (s ++ [c]) =
                 match number_int s with
                 | Some (i, r) => Some (i, r ++ [c])
                 | None => None
                 end).
  { assert (Hgo : forall sign t,
               match t ++ [c] with
               | [] => None
               | x :: s2 =>
                   if x =? 48 then Some (sign ++ [x], s2)
                   else if is_digit x
                        then let '(d, r) := digits s2 in Some (sign ++ x :: d, r)
                        else None
               end =
               match match t with
                     | [] => None
                     | x :: s2 =>
                         if x =? 48 then Some (sign ++ [x], s2)
                         else if is_digit x
                              then let '(d, r) := digits s2 in
                                   Some (sign ++ x :: d, r)
                              else None
                     end with
               | Some (i, r) => Some (i, r ++ [c])
               | None => None
               end).
    { intros sign [|x t]; cbn [app].
      - ws_cases; reflexivity.
      - destruct (x =? 48); [reflexivity|].
        destruct (is_digit x); [|reflexivity].
        rewrite digits_snoc. now destruct (digits t). }
    unfold number_int. destruct s as [|x s]; cbn [app].
    - ws_cases; reflexivity.
    - destruct (x =? 45); [apply (Hgo [x] s) | apply (Hgo [] (x :: s))]. }
  assert (Hfrac : forall t, number_frac (t ++ [c]) =
                 match number_frac t with
                 | Some (f, r) => Some (f, r ++ [c])
                 | None => None
                 end).
  { intros [|x t]; unfold number_frac; cbn [app].
    - ws_cases; reflexivity.
    - destruct (x =? 46); [|reflexivity].
      rewrite digits1_snoc. now destruct (digits1 t) as [[d r]|]. }
  assert (Hexp : forall t, number_exp (t ++ [c]) =
                 match number_exp t with
                 | Some (f, r) => Some (f, r ++ [c])
                 | None => None
                 end).
  { intros [|x t]; unfold number_exp; cbn [app].
    - ws_cases; reflexivity.
    - destruct ((x =? 101) || (x =? 69)); [|reflexivity].
      destruct t as [|d t]; cbn [app].
      + ws_cases; reflexivity.
      + destruct ((d =? 43) || (d =? 45)).
        * rewrite digits1_snoc. now destruct (digits1 t) as [[y r]|].
        * change (d :: t ++ [c]) with ((d :: t) ++ [c]).
          rewrite (digits1_snoc (d :: t)).
          now destruct (digits1 (d :: t)) as [[y r]|]. }
  unfold number. rewrite Hint.
  destruct (number_int s) as [[i s1]|]; [|reflexivity].
  rewrite Hfrac. destruct (number_frac s1) as [[f s2]|]; [|reflexivity].
  rewrite Hexp. now destruct (number_exp s2) as [[e s3]|].
Qed.

Lemma startsWith_snoc (p s : jsstring) :
  c ∉ p -> startsWith p (s ++ [c]) = startsWith p s.
Proof.
  revert s. induction p as [|a p IH]; intros s Hp; [reflexivity|].
  destruct s as [|x s]; cbn [app startsWith].
  - destruct (N.eqb_spec a c) as [->|]; [|reflexivity].
    exfalso. apply Hp, list_elem_of_here.
  - rewrite IH; [reflexivity|]. intros H. apply Hp, list_elem_of_further, H.
Qed.

Lemma startsWith_length (p s : jsstring) :
  startsWith p s = true -> (length p <= length s)%nat.
Proof.
  revert s. induction p as [|a p IH]; intros [|x s]; cbn; try lia;
    try discriminate.
  intros H. apply andb_true_iff in H as [_ H]. apply IH in H. lia.
Qed.

End ParserSnoc.

Section ParserSnocMain.
Variable c : N.
Hypothesis Hc : is_json_ws c = true.

Lemma ws_not_in_literals :
  (c ∉ u "true") /\ (c ∉ u "false") /\ (c ∉ u "null").
Proof.
  destruct (json_ws_cases c Hc) as [->|[->|[->| ->]]];
    repeat split; intros H;
    repeat (apply elem_of_cons in H as [H|H]; [discriminate H|]);
    now apply elem_of_nil in H.
Qed.

Lemma parse_value_ws (fuel : nat) : parse_value fuel [c] =
  match fuel with O => OutOfFuel | S _ => Invalid end.
Proof.
  destruct fuel; [reflexivity|].
  destruct (json_ws_cases c Hc) as [->|[->|[->| ->]]]; reflexivity.
Qed.

(** White space behind the text stays behind what the parser leaves. *)
Lemma parse_snoc (fuel : nat) :
  (forall s, parse_value fuel (s ++ [c]) = followed_by c (parse_value fuel s)) /\
  (forall s acc, parse_elements fuel (s ++ [c]) acc
                 = followed_by c (parse_elements fuel s acc)) /\
  (forall s acc, parse_members fuel (s ++ [c]) acc
                 = followed_by c (parse_members fuel s acc)).
Proof.
  induction fuel as [|fuel (IHv & IHe & IHm)];
    [repeat split; intros; reflexivity|].
  destruct ws_not_in_literals as (Ht & Hf & Hn).
  repeat split.
  - intros [|x s].
    + rewrite app_nil_l, parse_value_ws. reflexivity.
    + rewrite !parse_value_S. cbn [app].
      change (x :: s ++ [c]) with ((x :: s) ++ [c]).
      rewrite !(skip_ws_snoc c Hc), (string_body_snoc c Hc),
        (number_snoc c Hc), !startsWith_snoc by assumption.
      destruct (x =? 123).
      { destruct (skip_ws s) as [|d s'']; [reflexivity|].
        destruct (d =? 125); [reflexivity|].
        change (d :: s'' ++ [c]) with ((d :: s'') ++ [c]).
        rewrite IHm. now destruct (parse_members fuel (d :: s'') []). }
      destruct (x =? 91).
      { destruct (skip_ws s) as [|d s'']; [reflexivity|].
        destruct (d =? 93); [reflexivity|].
        change (d :: s'' ++ [c]) with ((d :: s'') ++ [c]).
        rewrite IHe. now destruct (parse_elements fuel (d :: s'') []). }
      destruct (x =? quote).
      { now destruct (string_body s) as [[v r]|]. }
      destruct ((x =? 45) || is_digit x).
      { now destruct (number (x :: s)) as [[n r]|]. }
      destruct (startsWith (u "true") (x :: s)) eqn:E1.
      { apply startsWith_length in E1. cbn [followed_by].
        f_equal. apply drop_app_le. exact E1. }
      destruct (startsWith (u "false") (x :: s)) eqn:E2.
      { apply startsWith_length in E2. cbn [followed_by].
        f_equal. apply drop_app_le. exact E2. }
      destruct (startsWith (u "null") (x :: s)) eqn:E3.
      { apply startsWith_length in E3. cbn [followed_by].
        f_equal. apply drop_app_le. exact E3. }
      reflexivity.
  - intros s acc. rewrite !parse_elements_S, IHv.
    destruct (parse_value fuel s) as [v r| |]; try reflexivity.
    cbn [followed_by]. rewrite (skip_ws_snoc c Hc).
    destruct (skip_ws r) as [|d r']; [reflexivity|].
    destruct (d =? 44).
    + rewrite (skip_ws_snoc c Hc).
      destruct (skip_ws r') as [|y t] eqn:Hr'.
      * now destruct fuel as [|[|fuel']].
      * change (y :: t ++ [c]) with ((y :: t) ++ [c]). apply IHe.
    + destruct (d =? 93); reflexivity.
  - intros [|x s] acc.
    + rewrite app_nil_l, !parse_members_S.
      destruct (json_ws_cases c Hc) as [->|[->|[->| ->]]]; reflexivity.
    + rewrite !parse_members_S. cbn [app].
      destruct (x =? quote); [|reflexivity].
      rewrite (string_body_snoc c Hc).
      destruct (string_body s) as [[key r]|]; [|reflexivity].
      rewrite (skip_ws_snoc c Hc).
      destruct (skip_ws r) as [|d r']; [reflexivity|].
      destruct (d =? 58); [|reflexivity].
      rewrite (skip_ws_snoc c Hc).
      destruct (skip_ws r') as [|y t] eqn:Hr'.
      * now destruct fuel as [|fuel'].
      * change (y :: t ++ [c]) with ((y :: t) ++ [c]). rewrite IHv.
        destruct (parse_value fuel (y :: t)) as [v r2| |]; try reflexivity.
        cbn [followed_by]. rewrite (skip_ws_snoc c Hc).
        destruct (skip_ws r2) as [|z r3]; [reflexivity|].
        destruct (z =? 44).
        -- rewrite (skip_ws_snoc c Hc).
           destruct (skip_ws r3) as [|y' t'] eqn:Hr3.
           ++ now destruct fuel as [|fuel'].
           ++ change (y' :: t' ++ [c]) with ((y' :: t') ++ [c]). apply IHm.
        -- destruct (z =? 125); reflexivity.
Qed.

End ParserSnocMain.

Section ParserEnds.

Lemma printable_not_ws (d : N) : 32 < d -> d < 160 -> is_whitespace d = false.
Proof.
  intros H1 H2. unfold is_whitespace.
  repeat match goal with
  | |- context [?a =? ?b] =>
      replace (a =? b) with false by (symmetry; apply N.eqb_neq; lia)
  end.
  replace (8192 <=? d) with false by (symmetry; apply N.leb_gt; lia).
  reflexivity.
Qed.

Lemma digit_not_ws (d : N) : is_digit d = true -> is_whitespace d = false.
Proof.
  unfold is_digit. intros H. apply andb_true_iff in H as [H1 H2].
  apply N.leb_le in H1, H2. apply printable_not_ws; lia.
Qed.

Lemma skip_ws_split (s : jsstring) : exists w, s = w ++ skip_ws s.
Proof.
  induction s as [|x s [w IH]]; [now exists []|].
  cbn [skip_ws]. destruct (is_json_ws x).
  - exists (x :: w). cbn [app]. now f_equal.
  - now exists [].
Qed.

Lemma string_body_end (s v r : jsstring) :
  string_body s = Some (v, r) -> exists pre, s = pre ++ quote :: r.
Proof.
  revert v r.
  induction s as [s IH] using (induction_ltof1 _ (@length N)).
  unfold ltof in IH. intros v r.
  destruct s as [|x s]; cbn [string_body]; [discriminate|].
  destruct (N.eqb_spec x quote) as [->|_].
  { intros [= <- <-]. now exists []. }
  destruct (x =? backslash).
  - destruct s as [|e s]; [discriminate|].
    destruct (e =? 117).
    + destruct s as [|h1 [|h2 [|h3 [|h4 s]]]]; try discriminate.
      destruct (hex4 h1 h2 h3 h4); [|discriminate].
      intros H. apply push_Some in H as [v' Hv].
      apply IH in Hv as [pre ->]; [|cbn [length]; lia].
      now exists (x :: e :: h1 :: h2 :: h3 :: h4 :: pre).
    + destruct (unescape e); [|discriminate].
      intros H. apply push_Some in H as [v' Hv].
      apply IH in Hv as [pre ->]; [|cbn [length]; lia].
      now exists (x :: e :: pre).
  - destruct (x <? 32); [discriminate|].
    intros H. apply push_Some in H as [v' Hv].
    apply IH in Hv as [pre ->]; [|cbn [length]; lia].
    now exists (x :: pre).
Qed.

Lemma digits_split (s : jsstring) :
  s = (digits s).1 ++ (digits s).2 /\
  Forall (fun x => is_digit x = true) (digits s).1.
Proof.
  induction s as [|x s [IH1 IH2]]; cbn [digits]; [now split|].
  destruct (is_digit x) eqn:Hx; [|now split].
  destruct (digits s) as [d r]. cbn [fst snd] in *. split.
  - cbn [app]. now f_equal.
  - now constructor.
Qed.

Lemma ends_with_digit (l : jsstring) :
  l <> [] -> Forall (fun x => is_digit x = true) l ->
  exists pre y, l = pre ++ [y] /\ is_digit y = true.
Proof.
  intros Hne Hall. destruct l as [|y l _] using rev_ind; [contradiction|].
  apply Forall_app in Hall as [_ Hy]. inversion Hy; subst. eauto.
Qed.

Lemma digits1_end (s d r : jsstring) :
  digits1 s = Some (d, r) ->
  exists pre y, s = pre ++ y :: r /\ is_digit y = true.
Proof.
  unfold digits1. destruct (digits_split s) as [Hs Hd].
  destruct (digits s) as [[|x d'] r']; [discriminate|].
  intros [= <- <-]. cbn [fst snd] in *.
  destruct (ends_with_digit (x :: d')) as (pre & y & Hl & Hy);
    [discriminate | assumption|].
  exists pre, y. split; [|assumption].
  rewrite Hs, Hl, <- app_assoc. reflexivity.
Qed.

Lemma number_end (s n r : jsstring) :
  number s = Some (n, r) ->
  exists pre y, s = pre ++ y :: r /\ is_digit y = true.
Proof.
  unfold number.
  destruct (number_int s) as [[i s1]|] eqn:Hi; [|discriminate].
  destruct (number_frac s1) as [[f s2]|] eqn:Hf; [|discriminate].
  destruct (number_exp s2) as [[e s3]|] eqn:He; [|discriminate].
  intros [= <- <-].
  assert (H1 : exists pre y, s = pre ++ y :: s1 /\ is_digit y = true).
  { unfold number_int in Hi.
    assert (Hgo : forall sign t,
               match t with
               | [] => None
               | c :: s2 =>
                   if c =? 48 then Some (sign ++ [c], s2)
                   else if is_digit c
                        then let '(d, r) := digits s2 in Some (sign ++ c :: d, r)
                        else None
               end = Some (i, s1) ->
               exists pre y, t = pre ++ y :: s1 /\ is_digit y = true).
    { intros sign [|c t]; [discriminate|].
      destruct (N.eqb_spec c 48) as [->|_].
      { intros [= <- <-]. now exists [], 48. }
      destruct (is_digit c) eqn:Hc; [|discriminate].
      destruct (digits_split t) as [Ht Hd].
      destruct (digits t) as [d r]. intros [= <- ->]. cbn [fst snd] in *.
      destruct (ends_with_digit (c :: d)) as (pre & y & Hl & Hy);
        [discriminate | now constructor |].
      exists pre, y. split; [|assumption].
      rewrite Ht. change (c :: d ++ s1) with ((c :: d) ++ s1).
      rewrite Hl, <- app_assoc. reflexivity. }
    destruct s as [|c s']; [discriminate|].
    destruct (c =? 45).
    - destruct (Hgo [c] s' Hi) as (pre & y & -> & Hy).
      now exists (c :: pre), y.
    - exact (Hgo [] (c :: s') Hi). }
  assert (H2 : s1 = s2 \/
               exists pre y, s1 = pre ++ y :: s2 /\ is_digit y = true).
  { unfold number_frac in Hf.
    destruct s1 as [|c s1']; [left; now injection Hf|].
    destruct (c =? 46).
    - destruct (digits1 s1') as [[d r]|] eqn:Hd; [|discriminate].
      injection Hf as <- <-. right.
      apply digits1_end in Hd as (pre & y & -> & Hy).
      now exists (c :: pre), y.
    - left. now injection Hf. }
  assert (H3 : s2 = s3 \/
               exists pre y, s2 = pre ++ y :: s3 /\ is_digit y = true).
  { unfold number_exp in He.
    destruct s2 as [|c s2']; [left; now injection He|].
    destruct ((c =? 101) || (c =? 69)).
    - right. destruct s2' as [|d t]; [discriminate|].
      destruct ((d =? 43) || (d =? 45)).
      + destruct (digits1 t) as [[x r]|] eqn:Hd; [|discriminate].
        injection He as <- <-.
        apply digits1_end in Hd as (pre & y & -> & Hy).
        now exists (c :: d :: pre), y.
      + destruct (digits1 (d :: t)) as [[x r]|] eqn:Hd; [|discriminate].
        injection He as <- <-.
        apply digits1_end in Hd as (pre & y & -> & Hy).
        now exists (c :: pre), y.
    - left. now injection He. }
  destruct H1 as (p1 & y1 & -> & Hy1).
  destruct H3 as [<-|(p3 & y3 & -> & Hy3)].
  - destruct H2 as [<-|(p2 & y2 & -> & Hy2)].
    + now exists p1, y1.
    + exists (p1 ++ y1 :: p2), y2. split; [|assumption].
      now rewrite <- app_assoc.
  - destruct H2 as [->|(p2 & y2 & -> & Hy2)].
    + exists (p1 ++ y1 :: p3), y3. split; [|assumption].
      now rewrite <- app_assoc.
    + exists (p1 ++ y1 :: p2 ++ y2 :: p3), y3. split; [|assumption].
      rewrite <- !app_assoc. cbn [app]. rewrite <- app_assoc. reflexivity.
Qed.

End ParserEnds.

Section ParserEndsMain.

Ltac list_norm := repeat (rewrite <- app_assoc || rewrite <- app_comm_cons).

(** What the parser consumes ends with a character that is not white
    space: a closing bracket, brace or quote, a digit, or the last
    letter of a literal. *)
Lemma parse_ends (fuel : nat) :
  (forall s v r, parse_value fuel s = Parsed v r ->
                 exists pre d, s = pre ++ d :: r /\ is_whitespace d = false) /\
  (forall s acc vs r, parse_elements fuel s acc = Parsed vs r ->
                      exists pre, s = pre ++ 93 :: r) /\
  (forall s acc ms r, parse_members fuel s acc = Parsed ms r ->
                      exists pre, s = pre ++ 125 :: r).
Proof.
  induction fuel as [|fuel (IHv & IHe & IHm)];
    [repeat split; intros; discriminate|].
  repeat split.
  - intros s v r H. rewrite parse_value_S in H.
    destruct s as [|x s]; [discriminate|].
    destruct (x =? 123).
    { destruct (skip_ws_split s) as [w Hw].
      destruct (skip_ws s) as [|d s''] eqn:Hs; [discriminate|].
      destruct (N.eqb_spec d 125) as [->|_].
      - injection H as <- <-. exists (x :: w), 125. rewrite Hw. now split.
      - destruct (parse_members fuel (d :: s'') []) as [ms r'| |] eqn:Hm;
          try discriminate.
        injection H as <- <-. apply IHm in Hm as [pre Hpre].
        exists (x :: w ++ pre), 125. split; [|reflexivity].
        rewrite Hw, Hpre. list_norm. reflexivity. }
    destruct (x =? 91).
    { destruct (skip_ws_split s) as [w Hw].
      destruct (skip_ws s) as [|d s''] eqn:Hs; [discriminate|].
      destruct (N.eqb_spec d 93) as [->|_].
      - injection H as <- <-. exists (x :: w), 93. rewrite Hw. now split.
      - destruct (parse_elements fuel (d :: s'') []) as [vs r'| |] eqn:He;
          try discriminate.
        injection H as <- <-. apply IHe in He as [pre Hpre].
        exists (x :: w ++ pre), 93. split; [|reflexivity].
        rewrite Hw, Hpre. list_norm. reflexivity. }
    destruct (x =? quote).
    { destruct (string_body s) as [[v' r']|] eqn:Hb; [|discriminate].
      injection H as <- <-. apply string_body_end in Hb as [pre ->].
      now exists (x :: pre), quote. }
    destruct ((x =? 45) || is_digit x).
    { destruct (number (x :: s)) as [[n r']|] eqn:Hn; [|discriminate].
      injection H as <- <-. apply number_end in Hn as (pre & y & -> & Hy).
      exists pre, y. split; [reflexivity | now apply digit_not_ws]. }
    destruct (startsWith (u "true") (x :: s)) eqn:E1.
    { injection H as <- <-. apply startsWith_true in E1.
      exists (u "tru"), 101. split; [exact E1 | reflexivity]. }
    destruct (startsWith (u "false") (x :: s)) eqn:E2.
    { injection H as <- <-. apply startsWith_true in E2.
      exists (u "fals"), 101. split; [exact E2 | reflexivity]. }
    destruct (startsWith (u "null") (x :: s)) eqn:E3; [|discriminate].
    injection H as <- <-. apply startsWith_true in E3.
    exists (u "nul"), 108. split; [exact E3 | reflexivity].
  - intros s acc vs r H. rewrite parse_elements_S in H.
    destruct (parse_value fuel s) as [v r1| |] eqn:Hv; try discriminate.
    apply IHv in Hv as (pre & d & -> & _).
    destruct (skip_ws_split r1) as [w Hw].
    destruct (skip_ws r1) as [|x r'] eqn:Hs; [discriminate|].
    destruct (x =? 44).
    + apply IHe in H as [pre' Hpre'].
      destruct (skip_ws_split r') as [w' Hw'].
      exists (pre ++ d :: w ++ x :: w' ++ pre').
      rewrite Hw, Hw', Hpre'. list_norm. reflexivity.
    + destruct (N.eqb_spec x 93) as [->|_]; [|discriminate].
      injection H as _ <-. exists (pre ++ d :: w).
      rewrite Hw. list_norm. reflexivity.
  - intros s acc ms r H. rewrite parse_members_S in H.
    destruct s as [|x s]; [discriminate|].
    destruct (x =? quote); [|discriminate].
    destruct (string_body s) as [[key r0]|] eqn:Hb; [|discriminate].
    apply string_body_end in Hb as [p0 ->].
    destruct (skip_ws_split r0) as [w0 Hw0].
    destruct (skip_ws r0) as [|d r'] eqn:Hs0; [discriminate|].
    destruct (d =? 58); [|discriminate].
    destruct (skip_ws_split r') as [w1 Hw1].
    destruct (parse_value fuel (skip_ws r')) as [v r2| |] eqn:Hv;
      try discriminate.
    apply IHv in Hv as (p2 & y & Hp2 & _).
    destruct (skip_ws_split r2) as [w2 Hw2].
    destruct (skip_ws r2) as [|z r3] eqn:Hs2; [discriminate|].
    pose (P := x :: p0 ++ quote :: w0 ++ d :: w1 ++ p2 ++ y :: w2).
    assert (Hs : x :: p0 ++ quote :: r0 = P ++ z :: r3).
    { unfold P. rewrite Hw0, Hw1, Hp2, Hw2. list_norm. reflexivity. }
    clearbody P.
    destruct (z =? 44).
    + apply IHm in H as [p3 Hp3].
      destruct (skip_ws_split r3) as [w3 Hw3].
      exists (P ++ z :: w3 ++ p3).
      rewrite Hs, Hw3, Hp3. list_norm. reflexivity.
    + destruct (N.eqb_spec z 125) as [->|_]; [|discriminate].
      injection H as _ <-. exists P. exact Hs.
Qed.

(** A JSON value starts with a character that is not white space. *)
Lemma parse_value_head (fuel : nat) (s : jsstring) v r :
  parse_value fuel s = Parsed v r ->
  exists d t, s = d :: t /\ is_whitespace d = false.
Proof.
  destruct fuel as [|fuel]; [discriminate|]. rewrite parse_value_S.
  destruct s as [|x s]; [discriminate|]. intros H. exists x, s.
  split; [reflexivity|].
  destruct (N.eqb_spec x 123) as [->|_]; [reflexivity|].
  destruct (N.eqb_spec x 91) as [->|_]; [reflexivity|].
  destruct (N.eqb_spec x quote) as [->|_]; [reflexivity|].
  destruct (N.eqb_spec x 45) as [->|_]; [reflexivity|].
  cbn [orb] in H.
  destruct (is_digit x) eqn:Hd; [now apply digit_not_ws|].
  destruct (startsWith (u "true") (x :: s)) eqn:E1.
  { apply startsWith_true in E1. now injection E1 as ->. }
  destruct (startsWith (u "false") (x :: s)) eqn:E2.
  { apply startsWith_true in E2. now injection E2 as ->. }
  destruct (startsWith (u "null") (x :: s)) eqn:E3; [|discriminate].
  apply startsWith_true in E3. now injection E3 as ->.
Qed.

End ParserEndsMain.

Section ParseTrim.

Lemma json_ws_is_whitespace (x : N) :
  is_json_ws x = true -> is_whitespace x = true.
Proof.
  intros H. destruct (json_ws_cases x H) as [->|[->|[->| ->]]]; reflexivity.
Qed.

Lemma trimStart_skip_ws (s : jsstring) d t :
  skip_ws s = d :: t -> is_whitespace d = false -> trimStart s = d :: t.
Proof.
  intros Hs Hd. induction s as [|x s IH]; [discriminate|].
  cbn [skip_ws] in Hs. cbn [trimStart].
  destruct (is_json_ws x) eqn:Hx.
  - rewrite (json_ws_is_whitespace x Hx). now apply IH.
  - injection Hs as -> ->. now rewrite Hd.
Qed.

Lemma skip_ws_nil (r : jsstring) :
  skip_ws r = [] -> Forall (fun x => is_json_ws x = true) r.
Proof.
  induction r as [|x r IH]; [constructor|]. cbn [skip_ws].
  destruct (is_json_ws x) eqn:Hx; [|discriminate].
  intros H. constructor; auto.
Qed.

Lemma trimStart_app_ws (a b : jsstring) y :
  Forall (fun x => is_whitespace x = true) a ->
  is_whitespace y = false ->
  trimStart (a ++ y :: b) = y :: b.
Proof.
  intros Ha Hy. induction Ha as [|x a Hx _ IH]; cbn [app trimStart].
  - now rewrite Hy.
  - now rewrite Hx.
Qed.

Lemma trimEnd_app_ws (pre r : jsstring) y :
  Forall (fun x => is_whitespace x = true) r ->
  is_whitespace y = false ->
  trimEnd (pre ++ y :: r) = pre ++ [y].
Proof.
  intros Hr Hy. unfold trimEnd.
  rewrite rev_app_distr. cbn [rev]. rewrite <- app_assoc. cbn [app].
  rewrite trimStart_app_ws; [| now apply Forall_rev | assumption].
  change (y :: rev pre) with ([y] ++ rev pre).
  rewrite rev_app_distr, rev_involutive. reflexivity.
Qed.

(** The parser does not look at white space behind the value. *)
Lemma parse_value_without_tail (fuel : nat) (core r rest : jsstring) v :
  Forall (fun x => is_json_ws x = true) r ->
  parse_value fuel (core ++ r) = Parsed v (rest ++ r) ->
  parse_value fuel core = Parsed v rest.
Proof.
  revert rest. induction r as [|c r IH] using rev_ind; intros rest Hr H.
  - now rewrite !app_nil_r in H.
  - apply Forall_app in Hr as [Hr Hc]. inversion Hc as [|? ? Hc' _]; subst.
    rewrite !app_assoc in H.
    rewrite (proj1 (parse_snoc c Hc' fuel)) in H.
    destruct (parse_value fuel (core ++ r)) as [v' r'| |] eqn:Hp;
      try discriminate.
    cbn [followed_by] in H. injection H as -> Hrest.
    apply app_inj_tail in Hrest as [-> _]. now apply IH.
Qed.

(** A text that parses still parses, to the same value, once trimmed. *)
Lemma parse_trim (s : jsstring) (v : json) :
  JSON.parse s = Some v -> JSON.parse (trim s) = Some v.
Proof.
  unfold JSON.parse at 1.
  destruct (parse_value (fuel_for s) (skip_ws s)) as [v' r| |] eqn:Hp;
    try discriminate.
  destruct (skip_ws r) as [|? ?] eqn:Hr; [|discriminate].
  intros [= ->].
  apply skip_ws_nil in Hr.
  destruct (parse_value_head _ _ _ _ Hp) as (d & t & Hd & Hdws).
  destruct (proj1 (parse_ends _) _ _ _ Hp) as (pre & y & Hy & Hyws).
  assert (Hcore : trim s = pre ++ [y]).
  { unfold trim. rewrite (trimStart_skip_ws s d t Hd Hdws), <- Hd, Hy.
    apply trimEnd_app_ws; [|assumption].
    eapply Forall_impl; [exact Hr|]. apply json_ws_is_whitespace. }
  assert (Hcut : parse_value (fuel_for s) (pre ++ [y]) = Parsed v []).
  { apply (parse_value_without_tail _ _ r); [assumption|].
    rewrite <- app_assoc. cbn [app]. now rewrite <- Hy. }
  assert (Hhead : skip_ws (pre ++ [y]) = pre ++ [y]).
  { assert (Hnj : forall x, is_whitespace x = false -> is_json_ws x = false).
    { intros x Hx. destruct (is_json_ws x) eqn:E; [|reflexivity].
      apply json_ws_is_whitespace in E. congruence. }
    destruct pre as [|p pre].
    - cbn [app skip_ws]. now rewrite (Hnj y Hyws).
    - rewrite Hd in Hy. cbn [app] in Hy. injection Hy as <- _.
      cbn [app skip_ws]. now rewrite (Hnj d Hdws). }
  assert (Hlen : (length (pre ++ [y]) <= length s)%nat).
  { pose proof (skip_ws_length s) as Hl. rewrite Hy in Hl.
    rewrite !length_app in *. cbn [length] in *. lia. }
  unfold JSON.parse. rewrite Hcore, Hhead.
  rewrite <- (parse_value_more_fuel (fuel_for (pre ++ [y])) (fuel_for s)).
  - now rewrite Hcut.
  - unfold fuel_for. lia.
  - apply (proj1 (parse_fuel _)). unfold fuel_for. lia.
Qed.

End ParseTrim.

(** * JSON inside code fences *)

(** C2, as stated, fails.  A completion can be valid JSON of the
    expected shape, with or without a fence around it, and hold three
    backticks inside a string value; the replacements take them out of
    the value too, so the function does not return the parsed fields
    unchanged: the BOL number [AB```12] comes back as [AB12]. *)
Lemma backticks_inside_a_value_are_lost :
  ~ (forall (e : env) (imagePath ocrText : jsstring) (w : world)
            (bytes : list N) (answer body : jsstring) (v : json),
        fs w !! imagePath = Some bytes ->
        completion e (Server.prompt ocrText) (image_url e bytes)
          = inr (Some answer) ->
        wraps answer body ->
        JSON.parse body = Some v ->
        exists w',
          Server.processImageForBOLData e imagePath ocrText w = (inr v, w')).
Proof.
  intros H.
  destruct (H (Sample.env_with backtick_json) (path Sample.file)
              Sample.text Sample.world0 [137; 80; 78; 71]
              backtick_json backtick_json
              (JObject [ (u "bolNumber", JString (u "AB```12"));
                         (u "weight", JNull);
                         (u "weightType", JNull) ]))
    as [w' Hw'].
  - vm_compute. reflexivity.
  - reflexivity.
  - left. reflexivity.
  - vm_compute. reflexivity.
  - apply (f_equal fst) in Hw'. vm_compute in Hw'. discriminate Hw'.
Qed.

(** What the function returns there, with and without a fence. *)
Example backtick_sample :
  (Server.processImageForBOLData (Sample.env_with backtick_json)
     (path Sample.file) Sample.text Sample.world0).1
  = inr (JObject [ (u "bolNumber", JString (u "AB12"));
                   (u "weight", JNull);
                   (u "weightType", JNull) ]) /\
  (Server.processImageForBOLData
     (Sample.env_with (fenced_json backtick_json))
     (path Sample.file) Sample.text Sample.world0).1
  = inr (JObject [ (u "bolNumber", JString (u "AB12"));
                   (u "weight", JNull);
                   (u "weightType", JNull) ]).
Proof. vm_compute. split; reflexivity. Qed.

(** C2, amended.  When the completion is a text without a backtick that
    parses as JSON, sent bare or inside a surrounding [json] or plain
    code fence, [processImageForBOLData] returns the parsed value
    itself: each field of the result, null included, is the field of
    the parsed JSON.  White space around the text makes no difference,
    and the file system is left as it was. *)
Theorem json_without_backticks_is_returned_unchanged
        (e : env) (imagePath ocrText : jsstring) (w : world)
        (bytes : list N) (answer body : jsstring) (v : json) :
  fs w !! imagePath = Some bytes ->
  completion e (Server.prompt ocrText) (image_url e bytes)
    = inr (Some answer) ->
  wraps answer body ->
  backtick ∉ body ->
  JSON.parse body = Some v ->
  exists w',
    Server.processImageForBOLData e imagePath ocrText w = (inr v, w') /\
    fs w' = fs w.
Proof.
  intros Hf Hc Hwrap Hb Hp.
  assert (Hclean : cleaned answer = trim body).
  { destruct (cleaned_without_backtick body Hb) as (H0 & H1 & H2).
    destruct Hwrap as [->|[->| ->]]; assumption. }
  eexists. split.
  - apply (strict_run e imagePath ocrText w bytes answer v Hf Hc).
    rewrite Hclean. now apply parse_trim.
  - reflexivity.
Qed.

Lemma json_without_backticks_witness :
  exists w',
    Server.processImageForBOLData
      (Sample.env_with (fenced_json padded_json))
      (path Sample.file) Sample.text Sample.world0
    = (inr Sample.parsed_json, w') /\
    fs w' = fs Sample.world0.
Proof.
  apply (json_without_backticks_is_returned_unchanged
           (Sample.env_with (fenced_json padded_json)) (path Sample.file)
           Sample.text Sample.world0 [137; 80; 78; 71]
           (fenced_json padded_json) padded_json Sample.parsed_json).
  - vm_compute. reflexivity.
  - reflexivity.
  - right. left. reflexivity.
  - apply (bool_decide_unpack _). vm_compute. exact I.
  - vm_compute. reflexivity.
Defined.
